(** * Workshop answer sheet front end: retry executor and sheet update flow

    A shallow embedding of [app_for_201407.py]: the retry wrapper
    [with_retry], the find-or-append flow [update_sheet], the question
    log [add_question] and the overwrite confirmation panel of the page
    script.  The spreadsheet service, the page widgets, the clock and the
    random generator are the program's environment; they are modelled as an
    explicit world that every operation threads. *)

From Stdlib Require Import List String Ascii ZArith QArith Lia Lqa Bool Arith.
From Stdlib Require Import Floats.PrimFloat Floats.SpecFloat Floats.FloatOps.
Import ListNotations.

Set Implicit Arguments.

(* ================================================================= *)
(** ** Numbers used for delays *)

(** The delay of line 26 mixes Python [int]s and [float]s.  The flow is
    written once over an arithmetic interface and read at two instances:
    exact rationals, and IEEE binary64 as CPython computes. *)
Class Arith := {
  num : Type;
  of_int : Z -> num;          (* conversion of a Python int *)
  add : num -> num -> num;
  mul : num -> num -> num;
  half : num                  (* the literal 0.5 *)
}.

Definition exact_arith : Arith :=
  {| num := Q; of_int := inject_Z; add := Qplus; mul := Qmult; half := 1 # 2 |}.



(* ================================================================= *)
(** ** The spreadsheet collaborator (a gspread worksheet) *)

(** A worksheet is an unbounded grid of text cells, all but finitely many
    empty.  It is kept as the rows of values the service returns; a cell
    outside the stored rows is empty.  Rows and columns are 1-based. *)
Definition Row := list string.
Definition Sheet := list Row.

Record Cell := { cell_row : nat; cell_col : nat; cell_value : string }.

Definition is_empty (s : string) : bool :=
  match s with EmptyString => true | _ => false end.

(** [worksheet.cell(row, col).value] *)
Definition cell_at (s : Sheet) (row col : nat) : string :=
  nth (col - 1) (nth (row - 1) s []) EmptyString.

(** [worksheet.find(query)]: the first cell, rows first and then columns,
    whose value is exactly [query]; [None] when there is none. *)
Fixpoint find_in_row (query : string) (row col : nat) (cells : Row) : option Cell :=
  match cells with
  | [] => None
  | v :: rest =>
      if String.eqb v query
      then Some {| cell_row := row; cell_col := col; cell_value := v |}
      else find_in_row query row (S col) rest
  end.

Fixpoint find_from (query : string) (row : nat) (rows : Sheet) : option Cell :=
  match rows with
  | [] => None
  | r :: rest =>
      match find_in_row query row 1 r with
      | Some c => Some c
      | None => find_from query (S row) rest
      end
  end.

Definition find (s : Sheet) (query : string) : option Cell := find_from query 1 s.

(** [worksheet.row_values(row)]: the values of a row up to its last
    non-empty cell. *)
Fixpoint drop_trailing_empty (cells : Row) : Row :=
  match cells with
  | [] => []
  | v :: rest =>
      match drop_trailing_empty rest with
      | [] => if is_empty v then [] else [v]
      | rest' => v :: rest'
      end
  end.

Definition row_values (s : Sheet) (row : nat) : Row :=
  drop_trailing_empty (nth (row - 1) s []).

(** [worksheet.update_cell(row, col, value)]; the grid is padded with empty
    cells up to the target. *)
Fixpoint set_nth {X : Type} (pad : X) (n : nat) (x : X) (l : list X) : list X :=
  match n, l with
  | O, [] => [x]
  | O, _ :: rest => x :: rest
  | S n', [] => pad :: set_nth pad n' x []
  | S n', y :: rest => y :: set_nth pad n' x rest
  end.

Definition update_cell (s : Sheet) (row col : nat) (value : string) : Sheet :=
  set_nth [] (row - 1) (set_nth EmptyString (col - 1) value (nth (row - 1) s [])) s.

(** [worksheet.append_row(values)]: the row is added after the stored rows. *)
Definition append_row (s : Sheet) (values : Row) : Sheet := s ++ [values].

(* ================================================================= *)
(** ** Exceptions, session state, page events and the world *)

(** [APIError] is gspread's error class, the only one [with_retry] retries.
    [RerunException] is Streamlit's control signal; it derives from
    [BaseException], so [except Exception] does not catch it. *)
Inductive Exn :=
| APIError (request : nat)      (* raised by the numbered remote request *)
| OtherError (request : nat)    (* any other failure of a remote request *)
| AttributeError                (* [None.row] *)
| TypeError                     (* [update_cell(None, None, None)] *)
| RerunException.

Definition is_APIError (e : Exn) : bool :=
  match e with APIError _ => true | _ => false end.

Definition is_Exception (e : Exn) : bool :=
  match e with RerunException => false | _ => true end.

(** What the service does with the next remote request. *)
Inductive Fault := Pass | ApiFail | OtherFail.

(** [st.session_state], lines 55-60. *)
Record Session := {
  confirm_overwrite : bool;
  row_number : option nat;
  col_number : option nat;
  answer : option string;
  existing_answer : option string
}.

Definition initial_session : Session :=
  {| confirm_overwrite := false; row_number := None; col_number := None;
     answer := None; existing_answer := None |}.

Definition clear_confirm (ss : Session) : Session :=
  {| confirm_overwrite := false; row_number := row_number ss;
     col_number := col_number ss; answer := answer ss;
     existing_answer := existing_answer ss |}.

Inductive Result (T : Type) :=
| Ok (value : T)
| Raise (e : Exn).
Arguments Ok {T} value.
Arguments Raise {T} e.

Section WithArith.
Context {A : Arith}.

(** What the page shows or does, most recent first. *)
Inductive Event :=
| WarnRetry (delay : num) (attempt max_retries : Z)  (* line 27 *)
| TimeSleep (seconds : num)
| SuccessSent                  (* lines 90 and 107 *)
| SuccessOverwritten           (* line 175 *)
| SuccessQuestionSent          (* line 123 *)
| ErrorSend (e : Exn)          (* line 110 *)
| ErrorOverwrite (e : Exn)     (* line 180 *)
| ErrorQuestion (e : Exn)      (* line 125 *)
| ErrorNoUsername              (* line 158 *)
| ErrorNoNameOrQuestion        (* line 198 *)
| WarnOverwritePrompt          (* line 165 *)
| WriteExisting (existing : option string)  (* line 166 *)
| InfoCancelled.               (* line 184 *)

Record World := {
  sheet : Sheet;               (* [workbook.sheet1], the AnswerSheet *)
  question_sheet : Sheet;      (* the worksheet of questions *)
  session : Session;
  log : list Event;
  requests : nat;              (* remote requests issued so far *)
  faults : list Fault;         (* fate of the coming requests; [Pass] once exhausted *)
  randoms : list num;          (* coming values of [random.random()]; 0 once exhausted *)
  clock : Z                    (* seconds since the epoch, UTC *)
}.

Definition set_sheet (s : Sheet) (w : World) : World :=
  {| sheet := s; question_sheet := question_sheet w; session := session w;
     log := log w; requests := requests w; faults := faults w;
     randoms := randoms w; clock := clock w |}.

Definition set_question_sheet (s : Sheet) (w : World) : World :=
  {| sheet := sheet w; question_sheet := s; session := session w;
     log := log w; requests := requests w; faults := faults w;
     randoms := randoms w; clock := clock w |}.

Definition set_session (ss : Session) (w : World) : World :=
  {| sheet := sheet w; question_sheet := question_sheet w; session := ss;
     log := log w; requests := requests w; faults := faults w;
     randoms := randoms w; clock := clock w |}.

Definition emit (ev : Event) (w : World) : World :=
  {| sheet := sheet w; question_sheet := question_sheet w; session := session w;
     log := ev :: log w; requests := requests w; faults := faults w;
     randoms := randoms w; clock := clock w |}.

Definition next_request (w : World) : World :=
  {| sheet := sheet w; question_sheet := question_sheet w; session := session w;
     log := log w; requests := S (requests w); faults := tl (faults w);
     randoms := randoms w; clock := clock w |}.

Definition next_random (w : World) : World :=
  {| sheet := sheet w; question_sheet := question_sheet w; session := session w;
     log := log w; requests := requests w; faults := faults w;
     randoms := tl (randoms w); clock := clock w |}.

(** Computations: a state passed along, and a value or a raised exception. *)
Definition M (T : Type) : Type := World -> World * Result T.

Definition ret {T} (v : T) : M T := fun w => (w, Ok v).

Definition raise {T} (e : Exn) : M T := fun w => (w, Raise e).

Definition bind {T U} (m : M T) (k : T -> M U) : M U :=
  fun w =>
    match m w with
    | (w', Ok v) => k v w'
    | (w', Raise e) => (w', Raise e)
    end.

Notation "x <- m ;; k" := (bind m (fun x => k))
  (at level 61, m at next level, right associativity).
Notation "m ;; k" := (bind m (fun _ => k))
  (at level 61, right associativity).

(** [try: body except Exception as e: handler(e)] *)
Definition try_except {T} (body : M T) (handler : Exn -> M T) : M T :=
  fun w =>
    match body w with
    | (w', Raise e) => if is_Exception e then handler e w' else (w', Raise e)
    | done => done
    end.

Definition modify (f : World -> World) : M unit := fun w => (f w, Ok tt).

Definition show (ev : Event) : M unit := modify (emit ev).

(** [time.sleep] is recorded as an event.  The [ValueError] of a negative
    argument needs a negative [delay_base], which no call site passes, and
    is left out. *)
Definition time_sleep (seconds : num) : M unit := show (TimeSleep seconds).

Definition random_random : M num :=
  fun w => (next_random w, Ok (hd (of_int 0) (randoms w))).

Definition st_rerun : M unit := raise RerunException.

(** A remote request: it is counted, takes its fate from the schedule, and
    has no effect on the service when it fails. *)
Definition request : M unit :=
  fun w =>
    match hd Pass (faults w) with
    | Pass => (next_request w, Ok tt)
    | ApiFail => (next_request w, Raise (APIError (requests w)))
    | OtherFail => (next_request w, Raise (OtherError (requests w)))
    end.

Definition sheet_find (query : string) : M (option Cell) :=
  request ;; fun w => (w, Ok (find (sheet w) query)).

Definition sheet_cell (row col : nat) : M Cell :=
  request ;; fun w =>
    (w, Ok {| cell_row := row; cell_col := col; cell_value := cell_at (sheet w) row col |}).

Definition sheet_update_cell (row col : nat) (value : string) : M unit :=
  request ;; modify (fun w => set_sheet (update_cell (sheet w) row col value) w).

Definition sheet_row_values (row : nat) : M Row :=
  request ;; fun w => (w, Ok (row_values (sheet w) row)).

Definition sheet_append_row (values : Row) : M unit :=
  request ;; modify (fun w => set_sheet (append_row (sheet w) values) w).

Definition question_sheet_append_row (values : Row) : M unit :=
  request ;;
  modify (fun w => set_question_sheet (append_row (question_sheet w) values) w).

(* ================================================================= *)
(** ** The retry executor, lines 14-28 *)

(** Line 26. *)
Definition retry_delay (delay_base attempt : Z) (r : num) : num :=
  mul (of_int (delay_base * (1 + attempt))) (add half r).

(** Lines 26-28: draw, warn, sleep. *)
Definition backoff (delay_base attempt max_retries : Z) : M unit :=
  r <- random_random ;;
  let delay := retry_delay delay_base attempt r in
  show (WarnRetry delay (attempt + 1) max_retries) ;;
  time_sleep delay.

(** The [for] loop from iteration [attempt] on, with [remaining]
    iterations left; falling off the loop returns [None]. *)
Fixpoint retry_loop {T} (func : M T) (max_retries delay_base : Z)
    (remaining : nat) (attempt : Z) : M (option T) :=
  match remaining with
  | O => ret None
  | S remaining' =>
      fun w =>
        match func w with
        | (w1, Ok v) => (w1, Ok (Some v))
        | (w1, Raise (APIError n)) =>
            if (attempt =? max_retries - 1)%Z
            then (w1, Raise (APIError n))
            else (backoff delay_base attempt max_retries ;;
                  retry_loop func max_retries delay_base remaining' (attempt + 1)) w1
        | (w1, Raise e) => (w1, Raise e)
        end
  end.

Definition with_retry {T} (func : M T) (max_retries delay_base : Z) : M (option T) :=
  retry_loop func max_retries delay_base (Z.to_nat max_retries) 0.

(** A call that leaves both keyword arguments at their defaults. *)
Definition with_retry_defaults {T} (func : M T) : M (option T) :=
  with_retry func 3 2.

(* ================================================================= *)
(** ** The sheet update flow, lines 62-110 *)

(** Truth value of what [with_retry(_get_cell_value)] returned: [None] and
    the empty text are false. *)
Definition truthy (v : option string) : bool :=
  match v with
  | Some s => negb (is_empty s)
  | None => false
  end.

Definition set_pending (row col : nat) (new_answer : string)
    (existing : option string) (w : World) : World :=
  set_session
    {| confirm_overwrite := true; row_number := Some row; col_number := Some col;
       answer := Some new_answer; existing_answer := existing |} w.

(** Lines 93-98. *)
Definition _append_row (username : string) : M (option Cell) :=
  header <- sheet_row_values 1 ;;
  let col_count := List.length header in
  let new_row := username :: repeat EmptyString (col_count - 1) in
  sheet_append_row new_row ;;
  sheet_find username.

(** The body of the [try], lines 68-107. *)
Definition update_sheet_try (username : string) (question_num : nat)
    (new_answer : string) : M unit :=
  let _find_user := sheet_find username in
  cell <- with_retry_defaults _find_user ;;
  match cell with
  | Some (Some c) =>
      let row := cell_row c in
      let _get_cell_value :=
        (got <- sheet_cell row (question_num + 1) ;; ret (cell_value got)) in
      existing <- with_retry_defaults _get_cell_value ;;
      if truthy existing
      then modify (set_pending row (question_num + 1) new_answer existing)
      else
        let _update_cell := sheet_update_cell row (question_num + 1) new_answer in
        with_retry_defaults _update_cell ;;
        show SuccessSent
  | _ =>
      new_cell <- with_retry_defaults (_append_row username) ;;
      match new_cell with
      | Some (Some c) =>
          let row := cell_row c in
          let _update_new_cell := sheet_update_cell row (question_num + 1) new_answer in
          with_retry_defaults _update_new_cell ;;
          show SuccessSent
      | _ => raise AttributeError
      end
  end.

Definition update_sheet (username : string) (question_num : nat)
    (new_answer : string) : M unit :=
  try_except (update_sheet_try username question_num new_answer)
             (fun e => show (ErrorSend e)).

(* ================================================================= *)
(** ** The question log, lines 112-125 *)

(** [datetime.now(tz).strftime('%Y-%m-%d %H:%M:%S')] for the zone
    Asia/Tokyo, nine hours ahead of UTC all year. *)
Definition tokyo_offset : Z := 32400.

(** Year, month and day of a day number counted from 1970-01-01. *)
Definition civil_from_days (days : Z) : Z * Z * Z :=
  let z := (days + 719468)%Z in
  let era := (z / 146097)%Z in
  let doe := (z - era * 146097)%Z in
  let yoe := ((doe - doe / 1460 + doe / 36524 - doe / 146096) / 365)%Z in
  let doy := (doe - (365 * yoe + yoe / 4 - yoe / 100))%Z in
  let mp := ((5 * doy + 2) / 153)%Z in
  let d := (doy - (153 * mp + 2) / 5 + 1)%Z in
  let m := (if mp <? 10 then mp + 3 else mp - 9)%Z in
  let y := (yoe + era * 400 + (if m <=? 2 then 1 else 0))%Z in
  (y, m, d).

Definition digit (n : Z) : ascii :=
  ascii_of_nat (48 + Z.to_nat (n mod 10)).

Definition two_digits (n : Z) : string :=
  String (digit (n / 10)) (String (digit n) EmptyString).

Definition four_digits (n : Z) : string :=
  String (digit (n / 1000)) (String (digit (n / 100)) (two_digits n)).

Definition strftime_tokyo (epoch : Z) : string :=
  let local := (epoch + tokyo_offset)%Z in
  let '(y, m, d) := civil_from_days (local / 86400) in
  let secs := (local mod 86400)%Z in
  (four_digits y ++ "-" ++ two_digits m ++ "-" ++ two_digits d ++ " " ++
   two_digits (secs / 3600) ++ ":" ++ two_digits (secs / 60 mod 60) ++ ":" ++
   two_digits (secs mod 60))%string.

Definition datetime_now_tokyo : M string :=
  fun w => (w, Ok (strftime_tokyo (clock w))).

Definition add_question (name question : string) : M unit :=
  current_time <- datetime_now_tokyo ;;
  let _append_question :=
    question_sheet_append_row [name; question; current_time] in
  try_except (with_retry_defaults _append_question ;; show SuccessQuestionSent)
             (fun e => show (ErrorQuestion e)).

(* ================================================================= *)
(** ** The page script, lines 150-200 *)

(** Line 171; the session is read when the closure runs. *)
Definition _overwrite_cell : M unit :=
  fun w =>
    match row_number (session w), col_number (session w), answer (session w) with
    | Some row, Some col, Some new_answer => sheet_update_cell row col new_answer w
    | _, _, _ => (w, Raise TypeError)
    end.

(** Lines 164-187, with the state of the two buttons. *)
Definition confirm_panel (yes no : bool) : M unit :=
  fun w =>
    if confirm_overwrite (session w)
    then
      (show WarnOverwritePrompt ;;
       (fun w' => show (WriteExisting (existing_answer (session w'))) w') ;;
       (if yes
        then try_except
               (with_retry_defaults _overwrite_cell ;;
                show SuccessOverwritten ;;
                time_sleep (of_int 2) ;;
                modify (fun w' => set_session (clear_confirm (session w')) w') ;;
                st_rerun)
               (fun e => show (ErrorOverwrite e))
        else ret tt) ;;
       (if no
        then show InfoCancelled ;;
             time_sleep (of_int 1) ;;
             modify (fun w' => set_session (clear_confirm (session w')) w') ;;
             st_rerun
        else ret tt)) w
    else (w, Ok tt).

(** What the visitor did since the page was last drawn.  [in_question] is
    the position of the chosen label in [options] (line 161 adds one). *)
Record Inputs := {
  in_username : string;
  in_question : nat;
  in_answer : string;
  submitted : bool;
  yes_clicked : bool;
  no_clicked : bool;
  in_name : string;
  in_question_text : string;
  question_submitted : bool
}.

(** Lines 150-200: what a run of the page does once lines 46-52 have
    opened the workbook and its two sheets.  That opening, which every run
    makes first and which stops the run when it fails, is not part of
    [script]. *)
Definition script (inp : Inputs) : M unit :=
  (if submitted inp
   then if is_empty (in_username inp)
        then show ErrorNoUsername
        else update_sheet (in_username inp) (in_question inp + 1) (in_answer inp)
   else ret tt) ;;
  confirm_panel (yes_clicked inp) (no_clicked inp) ;;
  (if question_submitted inp
   then if is_empty (in_name inp) || is_empty (in_question_text inp)
        then show ErrorNoNameOrQuestion
        else add_question (in_name inp) (in_question_text inp)
   else ret tt).

(* ================================================================= *)
(** ** Vocabulary of the statements *)

(** Does the computation end by raising? *)
Definition raises {T} (m : M T) (w : World) : bool :=
  match m w with
  | (_, Raise _) => true
  | (_, Ok _) => false
  end.

(** The world that lines 26-28 leave after a failed attempt. *)
Definition after_backoff (delay_base attempt max_retries : Z) (w : World) : World :=
  let delay := retry_delay delay_base attempt (hd (of_int 0) (randoms w)) in
  emit (TimeSleep delay)
       (emit (WarnRetry delay (attempt + 1) max_retries) (next_random w)).

(** What [retries] consecutive retries show, oldest first, the first one
    following attempt number [attempt] (0-based) and drawing from [rs]. *)
Fixpoint retry_trace (delay_base max_retries : Z) (retries : nat) (attempt : Z)
    (rs : list num) : list Event :=
  match retries with
  | O => []
  | S retries' =>
      let delay := retry_delay delay_base attempt (hd (of_int 0) rs) in
      WarnRetry delay (attempt + 1) max_retries :: TimeSleep delay ::
      retry_trace delay_base max_retries retries' (attempt + 1) (tl rs)
  end.

(** An operation that issues one remote request each time it is invoked. *)
Definition one_request_each {T} (func : M T) : Prop :=
  forall w, requests (fst (func w)) = S (requests w).

(** An operation that shows nothing and draws no random number. *)
Definition quiet {T} (func : M T) : Prop :=
  forall w, log (fst (func w)) = log w /\ randoms (fst (func w)) = randoms w.

(** Worlds that agree on everything but the AnswerSheet, the page events
    and the environment's schedules. *)
Definition same_rest (w w' : World) : Prop :=
  question_sheet w' = question_sheet w /\ session w' = session w /\
  clock w' = clock w.

Definition same_store (w w' : World) : Prop :=
  sheet w' = sheet w /\ same_rest w w'.

(** The row that lines 95-96 build over a given sheet. *)
Definition appended_row (s : Sheet) (username : string) : Row :=
  username :: repeat EmptyString (List.length (row_values s 1) - 1).

(** The pending overwrite a session holds. *)
Definition pending (ss : Session) (row col : nat) (new_answer : string)
    (existing : option string) : Prop :=
  ss = {| confirm_overwrite := true; row_number := Some row;
          col_number := Some col; answer := Some new_answer;
          existing_answer := existing |}.

End WithArith.

Notation "x <- m ;; k" := (bind m (fun x => k))
  (at level 61, m at next level, right associativity).
Notation "m ;; k" := (bind m (fun _ => k))
  (at level 61, right associativity).

(** The shape [YYYY-MM-DD HH:MM:SS]: a [d] of the pattern stands for a
    decimal digit, any other character for itself. *)
Definition is_digit (c : ascii) : bool :=
  (48 <=? nat_of_ascii c)%nat && (nat_of_ascii c <=? 57)%nat.

Fixpoint matches_pattern (pattern s : string) : bool :=
  match pattern, s with
  | EmptyString, EmptyString => true
  | String p pattern', String c s' =>
      (if Ascii.eqb p "d" then is_digit c else Ascii.eqb p c) &&
      matches_pattern pattern' s'
  | _, _ => false
  end.

Definition timestamp_pattern : string := "dddd-dd-dd dd:dd:dd".


(* ================================================================= *)
(** ** Sample worlds *)

Definition sample_header : Row := ["user"; "q1"; "q2"; "q3"]%string.

Definition sample_sheet : Sheet := [sample_header; ["alice"; "hello"]]%string.


(** The session after alice sent "world" for a cell that holds "hello". *)
Definition sample_pending : Session :=
  {| confirm_overwrite := true; row_number := Some 2%nat; col_number := Some 2%nat;
     answer := Some "world"%string; existing_answer := Some "hello"%string |}.


Definition world_of {A : Arith} (s : Sheet) (ss : Session) (fs : list Fault)
    (rs : list num) : World :=
  {| sheet := s; question_sheet := []; session := ss; log := [];
     requests := 0; faults := fs; randoms := rs; clock := 1720000000 |}.

(* ================================================================= *)
(** ** The rest of the page: the labels and the visitor's session *)

(** Lines 128-147. *)
Definition options : list string :=
  [ "ワーク2-1 プロンプト"; "ワーク2-1 ChatGPTの回答";
    "ワーク2-2 プロンプト"; "ワーク2-2 ChatGPTの回答";
    "ワーク2-3 プロンプト"; "ワーク2-3 ChatGPTの回答";
    "ワーク2-4 プロンプト"; "ワーク2-4 ChatGPTの回答";
    "ワーク2-5 プロンプト"; "ワーク2-5 ChatGPTの回答";
    "ワーク2-6 プロンプト"; "ワーク2-6 ChatGPTの回答";
    "ワーク3-1 プロンプト"; "ワーク3-1 ChatGPTの回答";
    "ワーク4-1 プロンプト"; "ワーク4-1 ChatGPTの回答";
    "ワーク4-2 プロンプト"; "ワーク4-2 ChatGPTの回答" ]%string.

(** [list.index(label)]: the first position that holds [label]; [None]
    stands for the [ValueError] of a missing label. *)
Fixpoint index_from (label : string) (pos : nat) (l : list string) : option nat :=
  match l with
  | [] => None
  | x :: rest => if String.eqb x label then Some pos else index_from label (S pos) rest
  end.

Definition options_index (label : string) : option nat := index_from label 0 options.

(** Line 161. *)
Definition question_index (label : string) : option nat :=
  match options_index label with
  | Some pos => Some (pos + 1)%nat
  | None => None
  end.

(** The page script runs once for each thing the visitor does, every run
    starting in the world the run before left. *)
Fixpoint run_pages {A : Arith} (visits : list Inputs) (w : World) : World :=
  match visits with
  | [] => w
  | inp :: rest => run_pages rest (fst (script inp w))
  end.

(** A visit in which nothing is filled in and nothing is pressed. *)
Definition idle_visit : Inputs :=
  {| in_username := ""; in_question := 0; in_answer := "";
     submitted := false; yes_clicked := false; no_clicked := false;
     in_name := ""; in_question_text := ""; question_submitted := false |}.

(** Alice sends [text] for the label at position [pos]. *)
Definition alice_sends (pos : nat) (text : string) : Inputs :=
  {| in_username := "alice"; in_question := pos; in_answer := text;
     submitted := true; yes_clicked := false; no_clicked := false;
     in_name := ""; in_question_text := ""; question_submitted := false |}.

(* ================================================================= *)
(** ** Reading a timestamp back *)

(** Reading a timestamp back: the civil date and time that a text of the
    shape YYYY-MM-DD HH:MM:SS names. *)
Record CivilTime := {
  year : Z; month : Z; day : Z; hour : Z; minute : Z; second : Z
}.

Definition digit_value (c : ascii) : Z := Z.of_nat (nat_of_ascii c) - 48.

Definition read2 (a b : ascii) : Z := 10 * digit_value a + digit_value b.

Definition read4 (a b c d : ascii) : Z :=
  1000 * digit_value a + 100 * digit_value b + read2 c d.

Definition read_timestamp (s : string) : option CivilTime :=
  match list_ascii_of_string s with
  | [y1; y2; y3; y4; s1; m1; m2; s2; d1; d2; s3; h1; h2; s4; n1; n2; s5; c1; c2] =>
      if (Ascii.eqb s1 "-" && Ascii.eqb s2 "-" && Ascii.eqb s3 " " &&
          Ascii.eqb s4 ":" && Ascii.eqb s5 ":")%bool
      then Some {| year := read4 y1 y2 y3 y4; month := read2 m1 m2;
                   day := read2 d1 d2; hour := read2 h1 h2;
                   minute := read2 n1 n2; second := read2 c1 c2 |}
      else None
  | _ => None
  end.

(** The Gregorian calendar, stated directly: leap years, the lengths of
    the months, and the number of days from 1970-01-01 to a date. *)
Definition is_leap (y : Z) : bool :=
  ((y mod 4 =? 0) && negb (y mod 100 =? 0) || (y mod 400 =? 0))%Z.

Definition month_lengths (y : Z) : list Z :=
  [31; if is_leap y then 29 else 28; 31; 30; 31; 30; 31; 31; 30; 31; 30; 31]%Z.

Definition days_in_month (y m : Z) : Z :=
  nth (Z.to_nat (m - 1)) (month_lengths y) 0%Z.

Definition leap_years_through (y : Z) : Z := (y / 4 - y / 100 + y / 400)%Z.

Definition days_of_civil (y m d : Z) : Z :=
  (365 * (y - 1970) + (leap_years_through (y - 1) - leap_years_through 1969) +
   fold_right Z.add 0 (firstn (Z.to_nat (m - 1)) (month_lengths y)) + (d - 1))%Z.

Definition seconds_of_civil (t : CivilTime) : Z :=
  (days_of_civil (year t) (month t) (day t) * 86400 +
   hour t * 3600 + minute t * 60 + second t)%Z.

Definition valid_civil (t : CivilTime) : Prop :=
  (1 <= month t <= 12 /\ 1 <= day t <= days_in_month (year t) (month t) /\
   0 <= hour t < 24 /\ 0 <= minute t < 60 /\ 0 <= second t < 60)%Z.

(** The date within a 400-year cycle that starts on a first of March:
    [civil_from_days] for the day [doe] of the cycle. *)
Definition civil_of_doe (doe : Z) : Z * Z * Z :=
  let yoe := ((doe - doe / 1460 + doe / 36524 - doe / 146096) / 365)%Z in
  let doy := (doe - (365 * yoe + yoe / 4 - yoe / 100))%Z in
  let mp := ((5 * doy + 2) / 153)%Z in
  let d := (doy - (153 * mp + 2) / 5 + 1)%Z in
  let m := (if mp <? 10 then mp + 3 else mp - 9)%Z in
  let y := (yoe + (if m <=? 2 then 1 else 0))%Z in
  (y, m, d).

Definition doe_ok (doe : Z) : bool :=
  let '(y, m, d) := civil_of_doe doe in
  ((0 <=? y) && (y <=? 400) && (1 <=? m) && (m <=? 12) && (1 <=? d) &&
   (d <=? days_in_month y m) && (days_of_civil y m d =? doe - 719468) &&
   ((146037 <=? doe) || (y <=? 399)))%Z.

(** A check of [f] on every integer from [lo], [len] of them, by halving. *)
Fixpoint check_range (fuel : nat) (lo len : Z) (f : Z -> bool) : bool :=
  match fuel with
  | O => (len <=? 0)%Z
  | S fuel' =>
      if (len <=? 0)%Z then true
      else if (len =? 1)%Z then f lo
      else let h := (len / 2)%Z in
           check_range fuel' lo h f && check_range fuel' (lo + h) (len - h) f
  end.

(* ================================================================= *)
(** ** Properties *)

Section Properties.
Context {A : Arith}.

Lemma backoff_eq (delay_base attempt max_retries : Z) (w : World) :
  backoff delay_base attempt max_retries w =
  (after_backoff delay_base attempt max_retries w, Ok tt).
Proof. reflexivity. Qed.

Lemma retry_loop_S {T} (func : M T) (m b : Z) (remaining : nat) (k : Z) (w : World) :
  retry_loop func m b (S remaining) k w =
  match func w with
  | (w1, Ok v) => (w1, Ok (Some v))
  | (w1, Raise e) =>
      if is_APIError e && negb (k =? m - 1)%Z
      then retry_loop func m b remaining (k + 1) (after_backoff b k m w1)
      else (w1, Raise e)
  end.
Proof.
  cbn [retry_loop].
  destruct (func w) as [w1 [v | e]]; [reflexivity |].
  destruct e; cbn [is_APIError andb]; try reflexivity.
  destruct (k =? m - 1)%Z; reflexivity.
Qed.

(** The loop never falls off its end when it starts with the iterations
    that [range(max_retries)] still holds. *)
Lemma retry_loop_returns {T} (func : M T) (m b : Z) :
  forall (remaining : nat) (k : Z) (w w' : World),
    (Z.of_nat remaining + k = m)%Z -> (0 < remaining)%nat ->
    retry_loop func m b remaining k w <> (w', Ok None).
Proof.
  induction remaining as [| remaining IH]; intros k w w' Hm Hpos; [lia |].
  rewrite retry_loop_S.
  destruct (func w) as [w1 [v | e]]; [discriminate |].
  destruct (is_APIError e && negb (k =? m - 1)%Z) eqn:Hretry; [| discriminate].
  apply andb_true_iff in Hretry as [_ Hk].
  apply negb_true_iff, Z.eqb_neq in Hk.
  apply IH; lia.
Qed.

(** Invariant rule for the retry loop: [I] holds whenever [func] is about
    to run, [Q] describes a returned value and [E] a raised exception. *)
Lemma retry_loop_rule {T} (func : M T) (m b : Z)
    (I : World -> Prop) (Q : World -> T -> Prop) (E : World -> Exn -> Prop) :
  (forall w w' r, I w -> func w = (w', r) ->
     match r with Ok v => Q w' v | Raise e => E w' e end) ->
  (forall w n k, E w (APIError n) -> I (after_backoff b k m w)) ->
  forall (remaining : nat) (k : Z) (w w' : World) (r : Result (option T)),
    I w -> retry_loop func m b remaining k w = (w', r) ->
    match r with
    | Ok (Some v) => Q w' v
    | Ok None => I w'
    | Raise e => E w' e
    end.
Proof.
  intros Hfunc Hback.
  induction remaining as [| remaining IH]; intros k w w' r HI Hrun.
  - cbn in Hrun. unfold ret in Hrun. inversion Hrun; subst. exact HI.
  - rewrite retry_loop_S in Hrun.
    destruct (func w) as [w1 [v | e]] eqn:Hf.
    + inversion Hrun; subst. exact (Hfunc _ _ _ HI Hf).
    + pose proof (Hfunc _ _ _ HI Hf) as HE. cbn in HE.
      destruct (is_APIError e && negb (k =? m - 1)%Z) eqn:Hretry.
      * apply andb_true_iff in Hretry as [Hapi _].
        destruct e; try discriminate.
        eapply IH; [| exact Hrun]. eapply Hback; exact HE.
      * inversion Hrun; subst. exact HE.
Qed.

Lemma with_retry_rule {T} (func : M T) (m b : Z)
    (I : World -> Prop) (Q : World -> T -> Prop) (E : World -> Exn -> Prop) :
  (0 < m)%Z ->
  (forall w w' r, I w -> func w = (w', r) ->
     match r with Ok v => Q w' v | Raise e => E w' e end) ->
  (forall w n k, E w (APIError n) -> I (after_backoff b k m w)) ->
  forall (w w' : World) (r : Result (option T)),
    I w -> with_retry func m b w = (w', r) ->
    match r with
    | Ok (Some v) => Q w' v
    | Ok None => False
    | Raise e => E w' e
    end.
Proof.
  intros Hm Hfunc Hback w w' r HI Hrun. unfold with_retry in Hrun.
  pose proof (retry_loop_rule func m b I Q E Hfunc Hback _ _ _ HI Hrun) as H.
  destruct r as [[v |] | e]; try exact H.
  eapply retry_loop_returns; [| | exact Hrun]; lia.
Qed.

(** *** The retry executor *)

(** C3. With three attempts allowed, an operation that raises the
    retryable API error at each of its three invocations is run exactly
    three times, and the third failure is what the caller gets, in the
    world the third invocation left; an operation that fails so once
    and then returns is run twice and its value is returned.  An operation
    that issues one request per invocation has then issued three, resp. two. *)
Theorem with_retry_three_attempts {T} (func : M T) (b : Z) (w : World) :
  (forall w1 w2 w3 n1 n2 n3,
     func w = (w1, Raise (APIError n1)) ->
     func (after_backoff b 0 3 w1) = (w2, Raise (APIError n2)) ->
     func (after_backoff b 1 3 w2) = (w3, Raise (APIError n3)) ->
     with_retry func 3 b w = (w3, Raise (APIError n3)) /\
     (one_request_each func -> requests w3 = (requests w + 3)%nat)) /\
  (forall w1 w2 n1 v,
     func w = (w1, Raise (APIError n1)) ->
     func (after_backoff b 0 3 w1) = (w2, Ok v) ->
     with_retry func 3 b w = (w2, Ok (Some v)) /\
     (one_request_each func -> requests w2 = (requests w + 2)%nat)).
Proof.
  split.
  - intros w1 w2 w3 n1 n2 n3 H1 H2 H3. split.
    + unfold with_retry. change (Z.to_nat 3) with 3%nat.
      rewrite retry_loop_S, H1. cbn [is_APIError andb negb Z.eqb Z.sub Z.add Z.opp Z.pos_sub].
      change (0 + 1)%Z with 1%Z.
      rewrite retry_loop_S, H2. cbn [is_APIError andb negb Z.eqb Z.sub Z.add Z.opp Z.pos_sub].
      change (1 + 1)%Z with 2%Z.
      rewrite retry_loop_S, H3. reflexivity.
    + intros Hone.
      pose proof (Hone w) as R1. rewrite H1 in R1.
      pose proof (Hone (after_backoff b 0 3 w1)) as R2. rewrite H2 in R2.
      pose proof (Hone (after_backoff b 1 3 w2)) as R3. rewrite H3 in R3.
      cbn in R1, R2, R3. lia.
  - intros w1 w2 n1 v H1 H2. split.
    + unfold with_retry. change (Z.to_nat 3) with 3%nat.
      rewrite retry_loop_S, H1. cbn [is_APIError andb negb Z.eqb Z.sub Z.add Z.opp Z.pos_sub].
      change (0 + 1)%Z with 1%Z.
      rewrite retry_loop_S, H2. reflexivity.
    + intros Hone.
      pose proof (Hone w) as R1. rewrite H1 in R1.
      pose proof (Hone (after_backoff b 0 3 w1)) as R2. rewrite H2 in R2.
      cbn in R1, R2. lia.
Qed.

(** C7. An exception other than the API error leaves the executor at
    once, from whichever attempt raised it: the caller gets that exception
    in the very world the operation left, so nothing was shown, no sleep
    happened and the operation was not run again. *)
Theorem non_api_error_propagates {T} (func : M T) (m b : Z) (w w1 : World) (e : Exn) :
  func w = (w1, Raise e) ->
  is_APIError e = false ->
  (forall remaining k, retry_loop func m b (S remaining) k w = (w1, Raise e)) /\
  ((0 < m)%Z -> with_retry func m b w = (w1, Raise e)).
Proof.
  intros Hf He.
  assert (Hloop : forall remaining k,
             retry_loop func m b (S remaining) k w = (w1, Raise e)).
  { intros remaining k. rewrite retry_loop_S, Hf, He. reflexivity. }
  split; [exact Hloop |].
  intros Hm. unfold with_retry.
  destruct (Z.to_nat m) as [| remaining] eqn:Hn; [lia |].
  apply Hloop.
Qed.



(** *** Remote operations *)

Ltac frame :=
  unfold same_store, same_rest in *; cbn in *; intuition congruence.

Lemma same_store_refl (w : World) : same_store w w.
Proof. frame. Qed.

Lemma same_store_trans (w1 w2 w3 : World) :
  same_store w1 w2 -> same_store w2 w3 -> same_store w1 w3.
Proof. frame. Qed.

Lemma same_store_backoff (w w1 : World) (b k m : Z) :
  same_store w w1 -> same_store w (after_backoff b k m w1).
Proof. frame. Qed.

Lemma request_spec (w : World) :
  exists r, request w = (next_request w, r) /\
            match r with Ok _ => True | Raise e => is_Exception e = true end.
Proof.
  unfold request.
  destruct (hd Pass (faults w)); eexists; (split; [reflexivity | cbn; auto]).
Qed.

Ltac run_request w H :=
  let r := fresh "r" in
  let Hr := fresh "Hr" in
  let He := fresh "He" in
  destruct (request_spec w) as (r & Hr & He);
  rewrite Hr in H; destruct r as [[] | ?]; cbn in He.

Lemma sheet_find_spec (query : string) (w w' : World) (r : Result (option Cell)) :
  sheet_find query w = (w', r) ->
  same_store w w' /\
  match r with
  | Ok v => v = find (sheet w) query
  | Raise e => is_Exception e = true
  end.
Proof.
  intros H. unfold sheet_find, bind in H.
  run_request w H; inversion H; subst; split; auto; frame.
Qed.

Lemma sheet_cell_spec (row col : nat) (w w' : World) (r : Result string) :
  (got <- sheet_cell row col ;; ret (cell_value got)) w = (w', r) ->
  same_store w w' /\
  match r with
  | Ok v => v = cell_at (sheet w) row col
  | Raise e => is_Exception e = true
  end.
Proof.
  intros H. unfold sheet_cell, bind, ret in H.
  run_request w H; inversion H; subst; split; auto; frame.
Qed.

Lemma sheet_update_cell_spec (row col : nat) (value : string) (w w' : World)
    (r : Result unit) :
  sheet_update_cell row col value w = (w', r) ->
  same_rest w w' /\
  match r with
  | Ok _ => sheet w' = update_cell (sheet w) row col value
  | Raise e => sheet w' = sheet w /\ is_Exception e = true
  end.
Proof.
  intros H. unfold sheet_update_cell, bind, modify in H.
  run_request w H; inversion H; subst; split; auto; frame.
Qed.

Lemma question_sheet_append_row_spec (values : Row) (w w' : World) (r : Result unit) :
  question_sheet_append_row values w = (w', r) ->
  sheet w' = sheet w /\ session w' = session w /\ clock w' = clock w /\
  match r with
  | Ok _ => question_sheet w' = question_sheet w ++ [values]
  | Raise e => question_sheet w' = question_sheet w /\ is_Exception e = true
  end.
Proof.
  intros H. unfold question_sheet_append_row, bind, modify in H.
  run_request w H; inversion H; subst; cbn; auto.
Qed.

(** An operation that changes nothing when it fails is, under the
    executor, either run to its one success or without any effect. *)
Lemma with_retry_once {T} (func : M T) (R : World -> World -> T -> Prop) :
  (forall w w' r, func w = (w', r) ->
     match r with
     | Ok v => R w w' v
     | Raise e => same_store w w' /\ is_Exception e = true
     end) ->
  (forall w1 w2 w' v, same_store w1 w2 -> R w2 w' v -> R w1 w' v) ->
  forall (w w' : World) (r : Result (option T)),
    with_retry_defaults func w = (w', r) ->
    match r with
    | Ok (Some v) => R w w' v
    | Ok None => False
    | Raise e => same_store w w' /\ is_Exception e = true
    end.
Proof.
  intros Hfunc Hresp w w' r Hrun.
  apply (@with_retry_rule T func 3 2
           (fun w1 => same_store w w1) (fun w1 v => R w w1 v)
           (fun w1 e => same_store w w1 /\ is_Exception e = true)) with (w := w);
    [lia | | | apply same_store_refl | exact Hrun].
  - intros w1 w2 r1 HI Hf. specialize (Hfunc _ _ _ Hf).
    destruct r1 as [v | e].
    + eapply Hresp; eauto.
    + destruct Hfunc. split; [eapply same_store_trans; eauto | auto].
  - intros w1 n k [HI _]. apply same_store_backoff, HI.
Qed.

Lemma with_retry_find (query : string) (w w' : World) (r : Result (option (option Cell))) :
  with_retry_defaults (sheet_find query) w = (w', r) ->
  same_store w w' /\
  match r with
  | Ok (Some v) => v = find (sheet w) query
  | Ok None => False
  | Raise e => is_Exception e = true
  end.
Proof.
  intros Hrun.
  pose proof (with_retry_once (sheet_find query)
                (fun w w' v => same_store w w' /\ v = find (sheet w) query)) as H.
  specialize (H
    ltac:(intros w1 w2 r1 Hf; apply sheet_find_spec in Hf; destruct r1; tauto)
    ltac:(intros w1 w2 w3 v Hs [Hs2 Hv]; split;
          [eapply same_store_trans; eauto | destruct Hs as [<- _]; exact Hv])
    _ _ _ Hrun).
  destruct r as [[v |] | e]; tauto.
Qed.

Lemma with_retry_cell (row col : nat) (w w' : World) (r : Result (option string)) :
  with_retry_defaults (got <- sheet_cell row col ;; ret (cell_value got)) w = (w', r) ->
  same_store w w' /\
  match r with
  | Ok (Some v) => v = cell_at (sheet w) row col
  | Ok None => False
  | Raise e => is_Exception e = true
  end.
Proof.
  intros Hrun.
  pose proof (with_retry_once (got <- sheet_cell row col ;; ret (cell_value got))
                (fun w w' v => same_store w w' /\ v = cell_at (sheet w) row col)) as H.
  specialize (H
    ltac:(intros w1 w2 r1 Hf; apply sheet_cell_spec in Hf; destruct r1; tauto)
    ltac:(intros w1 w2 w3 v Hs [Hs2 Hv]; split;
          [eapply same_store_trans; eauto | destruct Hs as [<- _]; exact Hv])
    _ _ _ Hrun).
  destruct r as [[v |] | e]; tauto.
Qed.

Lemma with_retry_update (row col : nat) (value : string) (w w' : World)
    (r : Result (option unit)) :
  with_retry_defaults (sheet_update_cell row col value) w = (w', r) ->
  same_rest w w' /\
  match r with
  | Ok (Some _) => sheet w' = update_cell (sheet w) row col value
  | Ok None => False
  | Raise e => sheet w' = sheet w /\ is_Exception e = true
  end.
Proof.
  intros Hrun.
  pose proof (with_retry_once (sheet_update_cell row col value)
                (fun w w' _ => same_rest w w' /\
                               sheet w' = update_cell (sheet w) row col value)) as H.
  specialize (H
    ltac:(intros w1 w2 r1 Hf; apply sheet_update_cell_spec in Hf;
          destruct r1; [tauto | frame])
    ltac:(intros w1 w2 w3 v Hs [Hs2 Hv]; frame)
    _ _ _ Hrun).
  destruct r as [[v |] | e]; [tauto | tauto | frame].
Qed.

(** *** The grid *)

Lemma nth_nil {X} (i : nat) (d : X) : nth i [] d = d.
Proof. destruct i; reflexivity. Qed.

Lemma nth_set_nth {X} (pad : X) (n : nat) (x : X) :
  forall (l : list X) (i : nat),
    nth i (set_nth pad n x l) pad = if (i =? n)%nat then x else nth i l pad.
Proof.
  induction n as [| n IH]; intros [| y l] [| i]; cbn; try reflexivity.
  - apply nth_nil.
  - rewrite IH, nth_nil. reflexivity.
  - apply IH.
Qed.

Lemma cell_at_update_cell (s : Sheet) (row col : nat) (v : string) (r c : nat) :
  cell_at (update_cell s row col v) r c =
  if ((r - 1 =? row - 1) && (c - 1 =? col - 1))%nat then v else cell_at s r c.
Proof.
  unfold cell_at, update_cell. rewrite nth_set_nth.
  destruct (r - 1 =? row - 1)%nat eqn:Hr; cbn [andb]; [| reflexivity].
  apply Nat.eqb_eq in Hr. rewrite Hr. apply nth_set_nth.
Qed.

Lemma cell_at_beyond (s : Sheet) (r c : nat) :
  (List.length s <= r - 1)%nat -> cell_at s r c = EmptyString.
Proof.
  intros H. unfold cell_at. rewrite (nth_overflow s [] H). apply nth_nil.
Qed.

Lemma cell_at_app (s rows : Sheet) (r c : nat) :
  (r - 1 < List.length s)%nat -> cell_at (s ++ rows) r c = cell_at s r c.
Proof. intros H. unfold cell_at. rewrite app_nth1 by exact H. reflexivity. Qed.

Lemma find_from_app (query : string) (s1 s2 : Sheet) :
  forall row,
    find_from query row (s1 ++ s2) =
    match find_from query row s1 with
    | Some c => Some c
    | None => find_from query (row + List.length s1) s2
    end.
Proof.
  induction s1 as [| r s1 IH]; intros row; cbn.
  - rewrite Nat.add_0_r. reflexivity.
  - destruct (find_in_row query row 1 r); [reflexivity |].
    rewrite IH. rewrite Nat.add_succ_r. reflexivity.
Qed.

(** Once the row of a user who was not on the sheet is appended, [find]
    lands on its first cell. *)
Lemma find_appended (s more : Sheet) (username : string) (rest : Row) :
  find s username = None ->
  find (s ++ (username :: rest) :: more) username =
  Some {| cell_row := S (List.length s); cell_col := 1; cell_value := username |}.
Proof.
  intros Hnone. unfold find in *. rewrite find_from_app, Hnone.
  cbn. rewrite String.eqb_refl. reflexivity.
Qed.

(** Every attempt of [_append_row] builds the same row: the appended
    copies never change what row 1 holds, or leave it one cell long. *)
Lemma appended_row_stable (s : Sheet) (username : string) (k : nat) :
  appended_row (s ++ repeat (appended_row s username) k) username =
  appended_row s username.
Proof.
  unfold appended_row, row_values. destruct s as [| header s]; [| reflexivity].
  destruct k as [| k]; [reflexivity |].
  cbn [app repeat nth Nat.sub drop_trailing_empty List.length].
  destruct (is_empty username); reflexivity.
Qed.

Lemma find_appended_row (s : Sheet) (username : string) (k : nat) :
  find s username = None ->
  find (s ++ repeat (appended_row s username) (S k)) username =
  Some {| cell_row := S (List.length s); cell_col := 1; cell_value := username |}.
Proof. intros Hnone. cbn [repeat]. unfold appended_row at 1. apply find_appended, Hnone. Qed.

Lemma repeat_snoc {X} (x : X) (k : nat) : repeat x k ++ [x] = repeat x (S k).
Proof. symmetry. apply repeat_cons. Qed.

(** The executor around [_append_row]: every attempt that reaches line 97
    appends one more copy of the row. *)
Lemma with_retry_append (username : string) (w w' : World)
    (r : Result (option (option Cell))) :
  with_retry_defaults (_append_row username) w = (w', r) ->
  same_rest w w' /\
  exists k : nat,
    match r with
    | Ok (Some v) =>
        sheet w' = sheet w ++ repeat (appended_row (sheet w) username) (S k) /\
        v = find (sheet w') username
    | Ok None => False
    | Raise e =>
        sheet w' = sheet w ++ repeat (appended_row (sheet w) username) k /\
        is_Exception e = true
    end.
Proof.
  intros Hrun. set (nr := appended_row (sheet w) username).
  pose proof (@with_retry_rule (option Cell) (_append_row username) 3 2
    (fun w1 => same_rest w w1 /\ exists k, sheet w1 = sheet w ++ repeat nr k)
    (fun w1 v => same_rest w w1 /\
                 exists k, sheet w1 = sheet w ++ repeat nr (S k) /\
                           v = find (sheet w1) username)
    (fun w1 e => (same_rest w w1 /\ exists k, sheet w1 = sheet w ++ repeat nr k) /\
                 is_Exception e = true)) as Rule.
  assert (Hfunc : forall w1 w2 r1,
    (same_rest w w1 /\ exists k, sheet w1 = sheet w ++ repeat nr k) ->
    _append_row username w1 = (w2, r1) ->
    match r1 with
    | Ok v => same_rest w w2 /\
              exists k, sheet w2 = sheet w ++ repeat nr (S k) /\
                        v = find (sheet w2) username
    | Raise e => (same_rest w w2 /\ exists k, sheet w2 = sheet w ++ repeat nr k) /\
                 is_Exception e = true
    end).
  { intros w1 w2 r1 [Hrest [k Hk]] Hf.
    unfold _append_row, sheet_row_values, sheet_append_row, sheet_find,
      bind, modify in Hf.
    run_request w1 Hf.
    2:{ inversion Hf; subst. split; [split; [frame | exists k; exact Hk] | auto]. }
    cbn [sheet next_request] in Hf.
    fold (appended_row (sheet w1) username) in Hf.
    rewrite Hk in Hf. unfold nr in Hf. rewrite appended_row_stable in Hf.
    fold nr in Hf.
    run_request (next_request w1) Hf.
    2:{ inversion Hf; subst. split; [split; [frame | exists k; exact Hk] | auto]. }
    match type of Hf with context [request ?w0] => run_request w0 Hf end.
    - inversion Hf; subst. split; [frame |].
      exists k. cbn. unfold append_row. rewrite Hk, <- app_assoc, repeat_snoc. auto.
    - inversion Hf; subst. split; [split; [frame |] | auto].
      exists (S k). cbn. unfold append_row. rewrite Hk, <- app_assoc, repeat_snoc. auto. }
  specialize (Rule ltac:(lia) Hfunc
    ltac:(intros w1 n k [[Hrest Hk] _]; split; [frame | exact Hk])
    w w' r
    ltac:(split; [frame | exists 0%nat; cbn; rewrite app_nil_r; reflexivity]) Hrun).
  destruct r as [[v |] | e].
  - destruct Rule as [Hrest [k Hk]]. split; [exact Hrest | exists k; exact Hk].
  - contradiction.
  - destruct Rule as [[Hrest [k Hk]] He]. split; [exact Hrest | exists k; auto].
Qed.

(** *** The sheet update flow *)

(** Every way the body of the [try] can end, under any schedule of
    failures. *)
Lemma update_sheet_try_outcome (username : string) (question_num : nat)
    (new_answer : string) (w w' : World) (r : Result unit) :
  update_sheet_try username question_num new_answer w = (w', r) ->
  question_sheet w' = question_sheet w /\ clock w' = clock w /\
  match r with
  | Raise e =>
      is_Exception e = true /\ session w' = session w /\
      match find (sheet w) username with
      | Some _ => sheet w' = sheet w
      | None =>
          exists k, sheet w' = sheet w ++ repeat (appended_row (sheet w) username) k
      end
  | Ok _ =>
      match find (sheet w) username with
      | Some c =>
          let existing := cell_at (sheet w) (cell_row c) (question_num + 1) in
          if is_empty existing
          then sheet w' = update_cell (sheet w) (cell_row c) (question_num + 1) new_answer /\
               session w' = session w /\
               hd_error (log w') = Some SuccessSent
          else sheet w' = sheet w /\
               pending (session w') (cell_row c) (question_num + 1) new_answer
                       (Some existing)
      | None =>
          exists k,
            sheet w' = update_cell
                         (sheet w ++ repeat (appended_row (sheet w) username) (S k))
                         (S (List.length (sheet w))) (question_num + 1) new_answer /\
            session w' = session w /\
            hd_error (log w') = Some SuccessSent
      end
  end.
Proof.
  intros Hrun. unfold update_sheet_try, bind in Hrun.
  destruct (with_retry_defaults (sheet_find username) w) as [w1 r1] eqn:H1.
  apply with_retry_find in H1 as [Hs1 Hv1].
  destruct r1 as [[found |] | e1]; [| contradiction |].
  2:{ inversion Hrun; subst.
      destruct (find (sheet w) username); [frame |].
      split; [frame | split; [frame |]]. split; [auto | split; [frame |]].
      exists 0%nat. cbn. rewrite app_nil_r. frame. }
  subst found. destruct (find (sheet w) username) as [c |] eqn:Hfind.
  - (* the user is on the sheet *)
    destruct (with_retry_defaults _ w1) as [w2 r2] eqn:H2 in Hrun.
    apply with_retry_cell in H2 as [Hs2 Hv2].
    destruct r2 as [[existing |] | e2]; [| contradiction |].
    2:{ inversion Hrun; subst. frame. }
    subst existing. destruct Hs1 as [Hsheet1 Hrest1].
    rewrite Hsheet1 in Hrun. cbn [truthy] in Hrun. cbv zeta.
    destruct (is_empty (cell_at (sheet w) (cell_row c) (question_num + 1))).
    + cbn [negb] in Hrun.
      destruct (with_retry_defaults _ w2) as [w3 r3] eqn:H3 in Hrun.
      apply with_retry_update in H3 as [Hs3 Hv3].
      destruct r3 as [[[] |] | e3]; [| contradiction |].
      * unfold show, modify in Hrun. inversion Hrun; subst. cbn.
        rewrite Hv3. frame.
      * inversion Hrun; subst. frame.
    + cbn [negb] in Hrun. unfold modify in Hrun. inversion Hrun; subst.
      unfold pending. cbn. frame.
  - (* a new user *)
    rename Hrun into Hnew.
    destruct (with_retry_defaults (_append_row username) w1) as [w2 r2] eqn:H2.
    apply with_retry_append in H2 as [Hs2 [k Hk]].
    destruct Hs1 as [Hsheet1 Hrest1]. rewrite Hsheet1 in Hk.
    destruct r2 as [[new_cell |] | e2]; [| contradiction |].
    2:{ inversion Hnew; subst. destruct Hk as [Hk He].
        split; [frame | split; [frame |]]. split; [auto | split; [frame |]].
        exists k. exact Hk. }
    destruct Hk as [Hk Hv]. rewrite Hk in Hv.
    rewrite find_appended_row in Hv by exact Hfind. subst new_cell.
    cbn [cell_row] in Hnew.
    destruct (with_retry_defaults _ w2) as [w3 r3] eqn:H3 in Hnew.
    apply with_retry_update in H3 as [Hs3 Hv3].
    destruct r3 as [[[] |] | e3]; [| contradiction |].
    + unfold show, modify in Hnew. inversion Hnew; subst.
      split; [frame | split; [frame |]].
      exists k. cbn. rewrite Hv3, Hk. frame.
    + inversion Hnew; subst.
      split; [frame | split; [frame |]]. split; [tauto | split; [frame |]].
      exists (S k). destruct Hv3 as [-> _]. exact Hk.
Qed.

Lemma update_sheet_unfold (username : string) (question_num : nat)
    (new_answer : string) (w : World) :
  update_sheet username question_num new_answer w =
  match update_sheet_try username question_num new_answer w with
  | (w1, Raise e) => if is_Exception e then (emit (ErrorSend e) w1, Ok tt)
                     else (w1, Raise e)
  | done => done
  end.
Proof.
  unfold update_sheet, try_except.
  destruct (update_sheet_try username question_num new_answer w) as [w1 [[] | e]];
    reflexivity.
Qed.

Lemma update_sheet_completes (username : string) (question_num : nat)
    (new_answer : string) (w : World) :
  raises (update_sheet_try username question_num new_answer) w = false ->
  update_sheet username question_num new_answer w =
  update_sheet_try username question_num new_answer w /\
  snd (update_sheet_try username question_num new_answer w) = Ok tt.
Proof.
  intros Hok. rewrite update_sheet_unfold. unfold raises in Hok.
  destruct (update_sheet_try username question_num new_answer w) as [w1 [[] | e]];
    [split; reflexivity | discriminate].
Qed.

Lemma set_nth_app {X} (pad : X) (n : nat) (x : X) (s t : list X) :
  set_nth pad (List.length s + n) x (s ++ t) = s ++ set_nth pad n x t.
Proof. induction s as [| y s IH]; cbn; [reflexivity | rewrite IH; reflexivity]. Qed.



(** C6. Whatever the service does, [update_sheet] returns normally.  An
    exception that leaves the try block, be it the API error that survived
    the retries or any other, is shown as the error message, and the
    session is then as it was before the call.  The session changes only
    into the pending overwrite, after [find] and the read of the cell have
    both returned, and then no cell has been written. *)
Theorem submit_answer_reports_errors (username : string) (question_num : nat)
    (new_answer : string) (w : World) :
  let w' := fst (update_sheet username question_num new_answer w) in
  let tried := update_sheet_try username question_num new_answer w in
  snd (update_sheet username question_num new_answer w) = Ok tt /\
  (forall e, snd tried = Raise e ->
     log w' = ErrorSend e :: log (fst tried) /\ session w' = session w) /\
  (session w' <> session w ->
     exists c,
       find (sheet w) username = Some c /\
       is_empty (cell_at (sheet w) (cell_row c) (question_num + 1)) = false /\
       pending (session w') (cell_row c) (question_num + 1) new_answer
               (Some (cell_at (sheet w) (cell_row c) (question_num + 1))) /\
       sheet w' = sheet w).
Proof.
  cbv zeta. rewrite update_sheet_unfold.
  destruct (update_sheet_try username question_num new_answer w) as [w1 r] eqn:Hrun.
  apply update_sheet_try_outcome in Hrun as (_ & _ & Hout).
  destruct r as [[] | e]; cbn [fst snd].
  - split; [reflexivity |]. split; [intros e He; discriminate |].
    intros Hchanged.
    destruct (find (sheet w) username) as [c |].
    + cbv zeta in Hout.
      destruct (is_empty (cell_at (sheet w) (cell_row c) (question_num + 1))) eqn:Hex.
      * destruct Hout as (_ & Hs & _). contradiction.
      * exists c. rewrite Hex. tauto.
    + destruct Hout as (k & _ & Hs & _). contradiction.
  - destruct Hout as (He & Hs & _). rewrite He. cbn [fst snd].
    split; [reflexivity |]. split.
    + intros e' He'. inversion He'; subst. split; [reflexivity | exact Hs].
    + intros Hchanged. cbn in Hchanged. contradiction.
Qed.

(** No call of [update_sheet] changes a cell that holds text. *)
Lemma update_sheet_keeps_nonempty (username : string) (question_num : nat)
    (new_answer : string) (w : World) (row col : nat) :
  is_empty (cell_at (sheet w) row col) = false ->
  cell_at (sheet (fst (update_sheet username question_num new_answer w))) row col =
  cell_at (sheet w) row col.
Proof.
  intros Hfull.
  assert (Hin : (row - 1 < List.length (sheet w))%nat).
  { destruct (Nat.lt_ge_cases (row - 1) (List.length (sheet w))) as [H | H]; [exact H |].
    rewrite (cell_at_beyond _ _ col H) in Hfull. discriminate. }
  rewrite update_sheet_unfold.
  destruct (update_sheet_try username question_num new_answer w) as [w1 r] eqn:Hrun.
  apply update_sheet_try_outcome in Hrun as (_ & _ & Hout).
  assert (Hgoal : cell_at (sheet w1) row col = cell_at (sheet w) row col).
  { destruct r as [[] | e].
    - destruct (find (sheet w) username) as [c |].
      + cbv zeta in Hout.
        destruct (is_empty (cell_at (sheet w) (cell_row c) (question_num + 1))) eqn:Hex.
        * destruct Hout as (-> & _). rewrite cell_at_update_cell.
          destruct (Nat.eqb_spec (row - 1) (cell_row c - 1)) as [Hr |]; [| reflexivity].
          destruct (Nat.eqb_spec (col - 1) (question_num + 1 - 1)) as [Hc |]; [| reflexivity].
          exfalso. unfold cell_at in Hfull, Hex. rewrite Hr, Hc, Hex in Hfull.
          discriminate.
        * destruct Hout as (-> & _). reflexivity.
      + destruct Hout as (k & -> & _). rewrite cell_at_update_cell.
        destruct (Nat.eqb_spec (row - 1) (S (List.length (sheet w)) - 1)); [lia |].
        cbn [andb]. apply cell_at_app, Hin.
    - destruct Hout as (_ & _ & Hout).
      destruct (find (sheet w) username) as [c |].
      + rewrite Hout. reflexivity.
      + destruct Hout as (k & ->). apply cell_at_app, Hin. }
  destruct r as [[] | e]; [exact Hgoal |].
  destruct (is_Exception e); exact Hgoal.
Qed.

(** *** The confirmation panel *)

Lemma with_retry_overwrite (row col : nat) (new_answer : string) (w w' : World)
    (r : Result (option unit)) :
  row_number (session w) = Some row ->
  col_number (session w) = Some col ->
  answer (session w) = Some new_answer ->
  with_retry_defaults _overwrite_cell w = (w', r) ->
  same_rest w w' /\
  match r with
  | Ok (Some _) => sheet w' = update_cell (sheet w) row col new_answer
  | Ok None => False
  | Raise e => sheet w' = sheet w /\ is_Exception e = true
  end.
Proof.
  intros Hrow Hcol Hans Hrun.
  pose proof (@with_retry_rule unit _overwrite_cell 3 2
    (fun w1 => same_store w w1)
    (fun w1 _ => same_rest w w1 /\ sheet w1 = update_cell (sheet w) row col new_answer)
    (fun w1 e => same_store w w1 /\ is_Exception e = true)) as Rule.
  specialize (Rule ltac:(lia)).
  assert (Hfunc : forall w1 w2 (r1 : Result unit),
            same_store w w1 -> _overwrite_cell w1 = (w2, r1) ->
            match r1 with
            | Ok _ => same_rest w w2 /\
                      sheet w2 = update_cell (sheet w) row col new_answer
            | Raise e => same_store w w2 /\ is_Exception e = true
            end).
  { intros w1 w2 r1 Hs Hf. unfold _overwrite_cell in Hf.
    destruct Hs as (Hsh & Hq & Hss & Hc).
    rewrite Hss, Hrow, Hcol, Hans in Hf.
    apply sheet_update_cell_spec in Hf. destruct r1; frame. }
  specialize (Rule Hfunc
    ltac:(intros w1 n k [Hs _]; apply same_store_backoff, Hs)
    w w' r (same_store_refl w) Hrun).
  destruct r as [[[] |] | e]; frame.
Qed.

(** The yes button, pressed alone while an overwrite is pending: either
    the write goes through, the flag is cleared and the page is rerun, or
    the failure is shown and everything else stays as it was. *)
Lemma confirm_yes_outcome (w w' : World) (row col : nat) (new_answer : string)
    (existing : option string) (r : Result unit) :
  pending (session w) row col new_answer existing ->
  confirm_panel true false w = (w', r) ->
  (r = Raise RerunException /\
   sheet w' = update_cell (sheet w) row col new_answer /\
   session w' = clear_confirm (session w) /\
   In SuccessOverwritten (log w')) \/
  (r = Ok tt /\ sheet w' = sheet w /\ session w' = session w /\
   exists e, hd_error (log w') = Some (ErrorOverwrite e)).
Proof.
  intros Hp Hrun. unfold pending in Hp. unfold confirm_panel in Hrun.
  rewrite Hp in Hrun. cbn [confirm_overwrite existing_answer] in Hrun.
  unfold bind, try_except, show, modify, time_sleep, st_rerun, raise, ret in Hrun.
  match type of Hrun with
  | context [with_retry_defaults _overwrite_cell ?w0] =>
      destruct (with_retry_defaults _overwrite_cell w0) as [w1 r1] eqn:Hw
  end.
  apply (@with_retry_overwrite row col new_answer) in Hw;
    [| cbn; rewrite Hp; reflexivity ..].
  destruct Hw as [Hrest Hres].
  destruct r1 as [[[] |] | e]; [| contradiction |].
  - left. cbn in Hrun, Hres. destruct Hrest as (_ & Hs & _). cbn in Hs.
    inversion Hrun; subst. cbn. rewrite Hs. repeat split; auto.
  - right. destruct Hres as [Hsh He]. rewrite He in Hrun.
    cbn in Hrun, Hsh. destruct Hrest as (_ & Hs & _). cbn in Hs.
    inversion Hrun; subst. cbn. repeat split; eauto.
Qed.

Lemma confirm_panel_without_yes (no : bool) (w w' : World) (r : Result unit) :
  confirm_panel false no w = (w', r) -> sheet w' = sheet w.
Proof.
  unfold confirm_panel. destruct (confirm_overwrite (session w));
    destruct no; intros H; inversion H; reflexivity.
Qed.

(** *** The question log *)

Lemma with_retry_question (values : Row) (w w' : World) (r : Result (option unit)) :
  with_retry_defaults (question_sheet_append_row values) w = (w', r) ->
  sheet w' = sheet w /\ session w' = session w /\ clock w' = clock w /\
  match r with
  | Ok (Some _) => question_sheet w' = question_sheet w ++ [values]
  | Ok None => False
  | Raise e => question_sheet w' = question_sheet w /\ is_Exception e = true
  end.
Proof.
  intros Hrun.
  pose proof (with_retry_once (question_sheet_append_row values)
    (fun w w' _ => sheet w' = sheet w /\ session w' = session w /\
                   clock w' = clock w /\
                   question_sheet w' = question_sheet w ++ [values])) as H.
  specialize (H
    ltac:(intros w1 w2 r1 Hf; apply question_sheet_append_row_spec in Hf;
          destruct r1; [tauto | frame])
    ltac:(intros w1 w2 w3 v Hs Hv; frame)
    _ _ _ Hrun).
  destruct r as [[v |] | e]; [tauto | tauto | frame].
Qed.

Lemma add_question_outcome (name question : string) (w : World) :
  exists w1,
    sheet w1 = sheet w /\ session w1 = session w /\
    ((add_question name question w = (emit SuccessQuestionSent w1, Ok tt) /\
      question_sheet w1 =
        question_sheet w ++ [[name; question; strftime_tokyo (clock w)]]) \/
     (exists e, add_question name question w = (emit (ErrorQuestion e) w1, Ok tt) /\
                question_sheet w1 = question_sheet w)).
Proof.
  unfold add_question, datetime_now_tokyo, bind, try_except.
  destruct (with_retry_defaults _ w) as [w1 r] eqn:Hw.
  apply with_retry_question in Hw as (Hsh & Hss & _ & Hres).
  exists w1. split; [exact Hsh |]. split; [exact Hss |].
  destruct r as [[[] |] | e]; [| contradiction |].
  - left. split; [reflexivity | exact Hres].
  - right. destruct Hres as [Hq He]. exists e. rewrite He. split; [reflexivity | exact Hq].
Qed.

Lemma is_digit_digit (n : Z) : is_digit (digit n) = true.
Proof.
  unfold digit.
  assert (H : (Z.to_nat (n mod 10) < 10)%nat)
    by (pose proof (Z.mod_pos_bound n 10); lia).
  revert H. generalize (Z.to_nat (n mod 10)). intros k H.
  do 10 (destruct k as [| k]; [reflexivity |]). lia.
Qed.

Lemma strftime_tokyo_shape (epoch : Z) :
  matches_pattern timestamp_pattern (strftime_tokyo epoch) = true.
Proof.
  unfold strftime_tokyo.
  destruct (civil_from_days ((epoch + tokyo_offset) / 86400)) as [[y m] d].
  unfold four_digits, two_digits, timestamp_pattern.
  cbn -[digit Z.div Z.modulo]. rewrite !is_digit_digit. reflexivity.
Qed.



(** X14. With no request failing, a new user gets exactly one new row:
    the sheet is the old one followed by the built row, with the answer
    written in it. *)
Lemma fault_free_new_user_appends_one_row (username : string) (question_num : nat)
    (new_answer : string) (w : World) :
  faults w = [] ->
  find (sheet w) username = None ->
  sheet (fst (update_sheet username question_num new_answer w)) =
  update_cell (sheet w ++ [appended_row (sheet w) username])
              (S (List.length (sheet w))) (question_num + 1) new_answer.
Proof.
  intros Hf Hfind. destruct w as [s qs ss lg n fs rs ck].
  cbn [faults sheet] in Hf, Hfind. subst fs.
  unfold update_sheet, try_except, update_sheet_try, with_retry_defaults, with_retry.
  change (Z.to_nat 3) with 3%nat.
  unfold bind at 1. rewrite retry_loop_S.
  unfold sheet_find at 1, bind at 1, request at 1. cbn [faults hd next_request sheet].
  rewrite Hfind.
  unfold bind at 1. rewrite retry_loop_S.
  unfold _append_row at 1, sheet_row_values, sheet_append_row, sheet_find, bind,
    request, modify.
  cbn [faults hd tl next_request sheet set_sheet].
  fold (appended_row s username).
  unfold append_row. pose proof (find_appended_row s username 0 Hfind) as Hfa.
  cbn [repeat] in Hfa. rewrite Hfa.
  cbn [cell_row]. rewrite retry_loop_S.
  unfold sheet_update_cell, bind, request, modify, show.
  cbn. reflexivity.
Qed.

(** *** What the executor wraps in this program *)

Lemma quiet_bind {T U} (m : M T) (k : T -> M U) :
  quiet m -> (forall v, quiet (k v)) -> quiet (bind m k).
Proof.
  intros Hm Hk w. unfold bind. destruct (Hm w) as [Hl Hr].
  destruct (m w) as [w1 [v | e]]; cbn [fst] in *; [| auto].
  destruct (Hk v w1) as [Hl' Hr']. split; congruence.
Qed.

Lemma quiet_request : quiet request.
Proof.
  intros w. unfold request. destruct (hd Pass (faults w)); split; reflexivity.
Qed.

Lemma quiet_sheet_find (query : string) : quiet (sheet_find query).
Proof.
  apply quiet_bind; [apply quiet_request | intros _ w; split; reflexivity].
Qed.

(** Each operation the program hands to [with_retry] shows nothing and
    draws no random number. *)
Lemma wrapped_operations_quiet :
  (forall row col, quiet (got <- sheet_cell row col ;; ret (cell_value got))) /\
  (forall row col value, quiet (sheet_update_cell row col value)) /\
  (forall username, quiet (_append_row username)) /\
  (forall values, quiet (question_sheet_append_row values)) /\
  quiet _overwrite_cell.
Proof.
  assert (Hupd : forall row col value, quiet (sheet_update_cell row col value)).
  { intros row col value.
    apply quiet_bind; [apply quiet_request | intros _ w; split; reflexivity]. }
  split; [| split; [| split; [| split]]].
  - intros row col. apply quiet_bind; [| intros got w; split; reflexivity].
    apply quiet_bind; [apply quiet_request | intros _ w; split; reflexivity].
  - exact Hupd.
  - intros username. unfold _append_row.
    apply quiet_bind;
      [apply quiet_bind; [apply quiet_request | intros _ w0; split; reflexivity] |].
    intros header. apply quiet_bind; [| intros _; apply quiet_sheet_find].
    apply quiet_bind; [apply quiet_request | intros _ w0; split; reflexivity].
  - intros values.
    apply quiet_bind; [apply quiet_request | intros _ w; split; reflexivity].
  - intros w. unfold _overwrite_cell.
    destruct (row_number (session w)), (col_number (session w)), (answer (session w));
      try (split; reflexivity); apply Hupd.
Qed.

(** X13. A call of [update_sheet] leaves every cell of the rows the sheet
    had as it was, the target cell of a located user apart, whatever the
    service does. *)
Lemma update_sheet_frame (username : string) (question_num : nat)
    (new_answer : string) (w : World) (row col : nat) :
  (row - 1 < List.length (sheet w))%nat ->
  (forall c, find (sheet w) username = Some c ->
             (row - 1 <> cell_row c - 1)%nat \/ (col - 1 <> question_num)%nat) ->
  cell_at (sheet (fst (update_sheet username question_num new_answer w))) row col =
  cell_at (sheet w) row col.
Proof.
  intros Hin Hother.
  rewrite update_sheet_unfold.
  destruct (update_sheet_try username question_num new_answer w) as [w1 r] eqn:Hrun.
  apply update_sheet_try_outcome in Hrun as (_ & _ & Hout).
  assert (Hgoal : cell_at (sheet w1) row col = cell_at (sheet w) row col).
  { destruct r as [[] | e].
    - destruct (find (sheet w) username) as [c |].
      + cbv zeta in Hout.
        destruct (is_empty (cell_at (sheet w) (cell_row c) (question_num + 1))).
        * destruct Hout as (-> & _). rewrite cell_at_update_cell.
          destruct (Nat.eqb_spec (row - 1) (cell_row c - 1)) as [Hr |]; [| reflexivity].
          destruct (Nat.eqb_spec (col - 1) (question_num + 1 - 1)) as [Hc |]; [| reflexivity].
          exfalso. destruct (Hother c eq_refl); lia.
        * destruct Hout as (-> & _). reflexivity.
      + destruct Hout as (k & -> & _). rewrite cell_at_update_cell.
        destruct (Nat.eqb_spec (row - 1) (S (List.length (sheet w)) - 1)); [lia |].
        cbn [andb]. apply cell_at_app, Hin.
    - destruct Hout as (_ & _ & Hout).
      destruct (find (sheet w) username) as [c |].
      + rewrite Hout. reflexivity.
      + destruct Hout as (k & ->). apply cell_at_app, Hin. }
  destruct r as [[] | e]; [exact Hgoal |].
  destruct (is_Exception e); exact Hgoal.
Qed.

End Properties.

(** *** The delay *)



(** *** Sample runs *)

(** The scenarios of the specification: alice sends "hello" for the first
    question on a sheet that holds the header only; she then sends "world"
    for the same question and confirms. *)
Example scenario_new_user :
  let w := @world_of exact_arith [sample_header] initial_session [] [] in
  let w' := fst (update_sheet "alice" 1 "hello" w) in
  sheet w' = [sample_header; ["alice"; "hello"; ""; ""]]%string /\
  log w' = [SuccessSent] /\
  session w' = initial_session.
Proof. repeat split. Qed.

Example scenario_overwrite_confirmed :
  let w := @world_of exact_arith [sample_header; ["alice"; "hello"; ""; ""]]%string
             initial_session [] [] in
  let asked := fst (update_sheet "alice" 1 "world" w) in
  let done := confirm_panel true false asked in
  sheet asked = sheet w /\
  session asked = sample_pending /\
  snd done = Raise RerunException /\
  sheet (fst done) = [sample_header; ["alice"; "world"; ""; ""]]%string /\
  confirm_overwrite (session (fst done)) = false.
Proof. repeat split. Qed.

Example strftime_tokyo_samples :
  strftime_tokyo 0 = "1970-01-01 09:00:00"%string /\
  strftime_tokyo 951782400 = "2000-02-29 09:00:00"%string /\
  strftime_tokyo 1720000000 = "2024-07-03 18:46:40"%string /\
  strftime_tokyo 1735657199 = "2024-12-31 23:59:59"%string.
Proof. repeat split. Qed.

Lemma with_retry_three_attempts_witness :
  let w := @world_of exact_arith [sample_header] initial_session
             [ApiFail; ApiFail; ApiFail] [] in
  let v := @world_of exact_arith [sample_header] initial_session [ApiFail] [] in
  (snd (with_retry (sheet_find "alice") 3 2 w) = Raise (APIError 2) /\
   requests (fst (with_retry (sheet_find "alice") 3 2 w)) = 3%nat) /\
  (snd (with_retry (sheet_find "alice") 3 2 v) = Ok (Some None) /\
   requests (fst (with_retry (sheet_find "alice") 3 2 v)) = 2%nat).
Proof.
  intros w v.
  assert (Hone : forall A (q : string), one_request_each (@sheet_find A q)).
  { intros A q u. unfold sheet_find, bind, request.
    destruct (hd Pass (faults u)); reflexivity. }
  split.
  - destruct (proj1 (with_retry_three_attempts (sheet_find "alice") 2 w)
                _ _ _ 0%nat 1%nat 2%nat eq_refl eq_refl eq_refl) as [Hrun Hcount].
    rewrite Hrun. split; [reflexivity |]. exact (Hcount (Hone _ _)).
  - destruct (proj2 (with_retry_three_attempts (sheet_find "alice") 2 v)
                _ _ 0%nat None eq_refl eq_refl) as [Hrun Hcount].
    rewrite Hrun. split; [reflexivity |]. exact (Hcount (Hone _ _)).
Defined.

Lemma non_api_error_propagates_witness :
  let w := @world_of exact_arith [sample_header] initial_session [OtherFail] [] in
  with_retry (sheet_find "alice") 3 2 w = (next_request w, Raise (OtherError 0)).
Proof.
  intros w.
  exact (proj2 (@non_api_error_propagates exact_arith _ (sheet_find "alice") 3 2 w
                  (next_request w) (OtherError 0) eq_refl eq_refl) eq_refl).
Defined.


Lemma submit_answer_reports_errors_witness :
  let w := @world_of exact_arith sample_sheet initial_session [OtherFail] [] in
  let w' := fst (update_sheet "alice" 1 "world" w) in
  log w' = [ErrorSend (OtherError 0)] /\ session w' = initial_session.
Proof.
  intros w.
  exact (proj1 (proj2 (@submit_answer_reports_errors exact_arith "alice" 1 "world" w))
           (OtherError 0) eq_refl).
Defined.




(** C10, at a failing input.  A new user, and the [find] of line 98
    failing once after the append went through: the executor runs
    [_append_row] again, a second row is appended, and the flow still
    reports success. *)
Theorem retried_append_adds_a_second_row :
  let w := @world_of exact_arith [sample_header] initial_session
             [Pass; Pass; Pass; ApiFail] [1 # 4] in
  let w' := fst (update_sheet "alice" 1 "hello" w) in
  find (sheet w) "alice" = None /\
  sheet w' = [sample_header; ["alice"; "hello"; ""; ""]; ["alice"; ""; ""; ""]]%string /\
  List.length (sheet w') = (List.length (sheet w) + 2)%nat /\
  hd_error (log w') = Some SuccessSent.
Proof. repeat split. Qed.

(* ================================================================= *)
(** ** Further properties of the executor *)

Section Executor.
Context {A : Arith}.

Lemma one_request_each_sheet_find (query : string) : one_request_each (sheet_find query).
Proof.
  intros w. unfold sheet_find, bind, request.
  destruct (hd Pass (faults w)); reflexivity.
Qed.

(** Invocations, warnings and the moment an API error may leave the loop. *)
Lemma retry_loop_accounting {T} (func : M T) (m b : Z) :
  one_request_each func ->
  quiet func ->
  forall (remaining : nat) (k : Z) (w w' : World) (r : Result (option T)),
    (Z.of_nat remaining + k = m)%Z ->
    (0 < remaining)%nat ->
    retry_loop func m b remaining k w = (w', r) ->
    exists retries : nat,
      (retries <= remaining - 1)%nat /\
      requests w' = (requests w + retries + 1)%nat /\
      log w' = rev (retry_trace b m retries k (randoms w)) ++ log w /\
      (forall n, r = Raise (APIError n) -> retries = (remaining - 1)%nat).
Proof.
  intros Hone Hq.
  induction remaining as [| remaining IH]; intros k w w' r Hm Hpos Hrun; [lia |].
  rewrite retry_loop_S in Hrun.
  pose proof (Hone w) as Hreq. destruct (Hq w) as [Hlog Hrand].
  destruct (func w) as [w1 [v | e]]; cbn [fst] in Hreq, Hlog, Hrand.
  - inversion Hrun; subst. exists 0%nat. cbn.
    repeat split; [lia | lia | auto | discriminate].
  - destruct (is_APIError e && negb (k =? m - 1)%Z) eqn:Hretry.
    + apply andb_true_iff in Hretry as [_ Hk].
      apply negb_true_iff, Z.eqb_neq in Hk.
      apply IH in Hrun as (retries & Hle & Hcount & Hl & Hlast); [| lia | lia].
      exists (S retries). split; [lia |]. split; [| split].
      * rewrite Hcount. cbn [after_backoff emit requests next_random]. lia.
      * rewrite Hl. cbn [retry_trace rev after_backoff emit log randoms next_random].
        rewrite Hrand, Hlog. rewrite <- !app_assoc. reflexivity.
      * intros n Hr. specialize (Hlast n Hr). lia.
    + inversion Hrun; subst. exists 0%nat. cbn.
      repeat split; [lia | lia | auto |].
      intros n Hr. inversion Hr; subst. cbn [is_APIError andb] in Hretry.
      apply negb_false_iff, Z.eqb_eq in Hretry. lia.
Qed.

(** X1. Around an operation that issues one request per invocation and
    shows nothing itself, a run of the executor with [max_retries >= 1]
    issues one request more than it shows warnings, at most [max_retries]
    in all; and an API error reaches the caller only when all
    [max_retries] attempts have been used. *)
Theorem with_retry_accounting {T} (func : M T) (m b : Z) (w w' : World)
    (r : Result (option T)) :
  (0 < m)%Z ->
  one_request_each func ->
  quiet func ->
  with_retry func m b w = (w', r) ->
  exists retries : nat,
    (Z.of_nat retries <= m - 1)%Z /\
    requests w' = (requests w + retries + 1)%nat /\
    log w' = rev (retry_trace b m retries 0 (randoms w)) ++ log w /\
    (forall n, r = Raise (APIError n) -> Z.of_nat retries = (m - 1)%Z).
Proof.
  intros Hm Hone Hq Hrun. unfold with_retry in Hrun.
  destruct (@retry_loop_accounting T func m b Hone Hq (Z.to_nat m) 0%Z w w' r
              ltac:(lia) ltac:(lia) Hrun) as (retries & Hle & Hcount & Hlog & Hlast).
  exists retries. repeat split; [lia | exact Hcount | exact Hlog |].
  intros n Hr. specialize (Hlast n Hr). lia.
Qed.

End Executor.

Lemma with_retry_accounting_witness :
  let w := @world_of exact_arith [sample_header] initial_session
             [ApiFail; ApiFail; ApiFail] [1 # 4; 3 # 4] in
  exists retries : nat,
    (Z.of_nat retries <= 3 - 1)%Z /\
    requests (fst (with_retry (sheet_find "alice") 3 2 w)) =
      (requests w + retries + 1)%nat /\
    log (fst (with_retry (sheet_find "alice") 3 2 w)) =
      rev (retry_trace 2 3 retries 0 (randoms w)) ++ log w /\
    (forall n, snd (with_retry (sheet_find "alice") 3 2 w) = Raise (APIError n) ->
               Z.of_nat retries = (3 - 1)%Z).
Proof.
  intros w.
  exact (@with_retry_accounting exact_arith _ (sheet_find "alice") 3 2 w
           (fst (with_retry (sheet_find "alice") 3 2 w))
           (snd (with_retry (sheet_find "alice") 3 2 w))
           eq_refl (one_request_each_sheet_find "alice") (quiet_sheet_find "alice")
           (surjective_pairing (with_retry (sheet_find "alice") 3 2 w))).
Defined.

(* ================================================================= *)
(** ** Further properties of the sheet update flow *)

Section Flow.
Context {A : Arith}.

(** X3. A call of [update_sheet] never resets the confirmation flag: an
    overwrite that is pending stays pending, or is replaced by a new one. *)
Theorem update_sheet_never_clears_pending (username : string) (question_num : nat)
    (new_answer : string) (w : World) :
  confirm_overwrite (session w) = true ->
  confirm_overwrite (session (fst (update_sheet username question_num new_answer w))) =
  true.
Proof.
  intros Hflag. rewrite update_sheet_unfold.
  destruct (update_sheet_try username question_num new_answer w) as [w1 r] eqn:Hrun.
  apply update_sheet_try_outcome in Hrun as (_ & _ & Hout).
  destruct r as [[] | e]; cbn [fst].
  - destruct (find (sheet w) username) as [c |].
    + cbv zeta in Hout.
      destruct (is_empty (cell_at (sheet w) (cell_row c) (question_num + 1))).
      * destruct Hout as (_ & -> & _). exact Hflag.
      * destruct Hout as (_ & Hp). unfold pending in Hp. rewrite Hp. reflexivity.
    + destruct Hout as (k & _ & -> & _). exact Hflag.
  - destruct Hout as (He & Hs & _). rewrite He. cbn. rewrite Hs. exact Hflag.
Qed.

Lemma length_set_nth {X} (pad : X) (n : nat) (x : X) :
  forall l : list X, (List.length l <= List.length (set_nth pad n x l))%nat.
Proof.
  induction n as [| n IH]; intros [| y l]; cbn; try lia.
  specialize (IH l). lia.
Qed.

(** X4. A call of [update_sheet] never removes a row of the AnswerSheet
    and leaves the sheet of questions as it is, whatever the service does. *)
Theorem update_sheet_keeps_rows_and_questions (username : string)
    (question_num : nat) (new_answer : string) (w : World) :
  let w' := fst (update_sheet username question_num new_answer w) in
  (List.length (sheet w) <= List.length (sheet w'))%nat /\
  question_sheet w' = question_sheet w.
Proof.
  cbv zeta. rewrite update_sheet_unfold.
  destruct (update_sheet_try username question_num new_answer w) as [w1 r] eqn:Hrun.
  apply update_sheet_try_outcome in Hrun as (Hq & _ & Hout).
  assert (Hlen : (List.length (sheet w) <= List.length (sheet w1))%nat).
  { destruct r as [[] | e].
    - destruct (find (sheet w) username) as [c |].
      + cbv zeta in Hout.
        destruct (is_empty (cell_at (sheet w) (cell_row c) (question_num + 1))).
        * destruct Hout as (-> & _). apply length_set_nth.
        * destruct Hout as (-> & _). lia.
      + destruct Hout as (k & -> & _). unfold update_cell.
        etransitivity; [| apply length_set_nth]. rewrite length_app. lia.
    - destruct Hout as (_ & _ & Hout).
      destruct (find (sheet w) username) as [c |].
      + rewrite Hout. lia.
      + destruct Hout as (k & ->). rewrite length_app. lia. }
  destruct r as [[] | e]; cbn [fst]; [auto |].
  destruct (is_Exception e); cbn; auto.
Qed.

(** *** Finding the user again after a write *)

Lemma find_in_row_facts (query : string) :
  forall (cells : Row) (row col : nat) (c : Cell),
    find_in_row query row col cells = Some c ->
    cell_row c = row /\ (col <= cell_col c)%nat /\
    nth (cell_col c - col) cells EmptyString = query.
Proof.
  induction cells as [| v rest IH]; intros row col c H; cbn in H; [discriminate |].
  destruct (String.eqb_spec v query) as [-> | Hne].
  - inversion H; subst. cbn. rewrite Nat.sub_diag. auto.
  - apply IH in H as (Hr & Hc & Hn). split; [exact Hr |]. split; [lia |].
    replace (cell_col c - col)%nat with (S (cell_col c - S col)) by lia. exact Hn.
Qed.

Lemma find_from_facts (query : string) :
  forall (s : Sheet) (row : nat) (c : Cell),
    find_from query row s = Some c ->
    (row <= cell_row c)%nat /\ (1 <= cell_col c)%nat /\
    nth (cell_col c - 1) (nth (cell_row c - row) s []) EmptyString = query.
Proof.
  induction s as [| r rest IH]; intros row c H; cbn in H; [discriminate |].
  destruct (find_in_row query row 1 r) as [c0 |] eqn:Hrow.
  - inversion H; subst. apply find_in_row_facts in Hrow as (Hr & Hc & Hn).
    rewrite Hr, Nat.sub_diag. auto.
  - apply IH in H as (Hr & Hc & Hn). split; [lia |]. split; [exact Hc |].
    replace (cell_row c - row)%nat with (S (cell_row c - S row)) by lia. exact Hn.
Qed.

(** Writing another cell of the row where [find] stops keeps [find] in
    that row. *)
Lemma find_in_row_set_nth (query v : string) :
  forall (cells : Row) (row col n : nat) (c : Cell),
    find_in_row query row col cells = Some c ->
    n <> (cell_col c - col)%nat ->
    exists c', find_in_row query row col (set_nth EmptyString n v cells) = Some c' /\
               cell_row c' = row.
Proof.
  induction cells as [| x rest IH]; intros row col n c H Hn; cbn in H; [discriminate |].
  destruct (String.eqb x query) eqn:Hx.
  - inversion H; subst. cbn in Hn. rewrite Nat.sub_diag in Hn.
    destruct n as [| n]; [congruence |]. cbn. rewrite Hx. eauto.
  - pose proof (find_in_row_facts _ _ _ _ H) as (_ & Hc & _).
    destruct n as [| n]; cbn.
    + destruct (String.eqb v query); [eauto |]. rewrite H.
      apply find_in_row_facts in H as (Hr & _). eauto.
    + rewrite Hx. eapply IH; [exact H | lia].
Qed.

Lemma find_from_set_nth (query v : string) :
  forall (s : Sheet) (row n : nat) (c : Cell),
    find_from query row s = Some c ->
    n <> (cell_col c - 1)%nat ->
    exists c',
      find_from query row
        (set_nth [] (cell_row c - row)
                 (set_nth EmptyString n v (nth (cell_row c - row) s [])) s) = Some c' /\
      cell_row c' = cell_row c.
Proof.
  induction s as [| r rest IH]; intros row n c H Hn; cbn in H; [discriminate |].
  destruct (find_in_row query row 1 r) as [c0 |] eqn:Hrow.
  - inversion H; subst.
    pose proof (find_in_row_facts _ _ _ _ Hrow) as (Hr & _).
    rewrite Hr, Nat.sub_diag. cbn.
    destruct (@find_in_row_set_nth query v r row 1 n c Hrow Hn) as (c' & -> & Hr').
    exists c'. split; [reflexivity | congruence].
  - pose proof (find_from_facts _ _ _ H) as (Hr & _).
    replace (cell_row c - row)%nat with (S (cell_row c - S row)) by lia.
    cbn. rewrite Hrow. apply IH; assumption.
Qed.

Lemma find_after_update_cell (s : Sheet) (username v : string) (c : Cell) (col : nat) :
  find s username = Some c ->
  (col - 1 <> cell_col c - 1)%nat ->
  exists c', find (update_cell s (cell_row c) col v) username = Some c' /\
             cell_row c' = cell_row c.
Proof.
  intros Hfind Hcol. unfold find, update_cell in *.
  apply find_from_set_nth; assumption.
Qed.

(** After a call that wrote directly, [find] locates the user in a row
    whose target cell holds the answer just written. *)
Lemma direct_write_locates (username : string) (question_num : nat)
    (new_answer : string) (w w1 : World) :
  is_empty username = false ->
  (1 <= question_num)%nat ->
  (forall c, find (sheet w) username = Some c ->
             is_empty (cell_at (sheet w) (cell_row c) (question_num + 1)) = true) ->
  update_sheet_try username question_num new_answer w = (w1, Ok tt) ->
  exists c', find (sheet w1) username = Some c' /\
             cell_at (sheet w1) (cell_row c') (question_num + 1) = new_answer.
Proof.
  intros Hu Hq Hempty Hrun.
  apply update_sheet_try_outcome in Hrun as (_ & _ & Hout).
  destruct (find (sheet w) username) as [c |] eqn:Hfind.
  - cbv zeta in Hout. rewrite (Hempty c eq_refl) in Hout.
    destruct Hout as (Hsheet & _).
    destruct (@find_after_update_cell (sheet w) username new_answer c
                (question_num + 1) Hfind) as (c' & Hfind' & Hrow).
    { intros Heq. pose proof (Hempty c eq_refl) as He.
      apply find_from_facts in Hfind as (_ & _ & Hval).
      unfold cell_at in He. rewrite Heq in He.
      replace (cell_row c - 1)%nat with (cell_row c - 1)%nat in Hval by reflexivity.
      rewrite Hval in He. rewrite He in Hu. discriminate. }
    exists c'. rewrite Hsheet. split; [exact Hfind' |].
    rewrite Hrow, cell_at_update_cell, !Nat.eqb_refl. reflexivity.
  - destruct Hout as (k & Hsheet & _).
    exists {| cell_row := S (List.length (sheet w)); cell_col := 1;
              cell_value := username |}.
    cbn [cell_row]. split.
    + rewrite Hsheet. unfold update_cell.
      replace (S (List.length (sheet w)) - 1)%nat
        with (List.length (sheet w) + 0)%nat by lia.
      replace (question_num + 1 - 1)%nat with question_num by lia.
      rewrite set_nth_app, app_nth2_plus. cbn [repeat nth set_nth].
      unfold appended_row. destruct question_num as [| q']; [lia |].
      cbn [set_nth]. apply find_appended, Hfind.
    + rewrite Hsheet, cell_at_update_cell, !Nat.eqb_refl. reflexivity.
Qed.

(** X5. An answer written directly is guarded from then on: when a call
    of [update_sheet] for a user whose target cell was empty, or who was not
    on the sheet, ends without an exception and wrote a non-empty answer, a
    second call for the same user and question that ends without an
    exception writes nothing and asks for confirmation, showing the first
    answer as the existing one. *)
Theorem resubmission_asks_for_confirmation (username : string) (question_num : nat)
    (first second : string) (w : World) :
  is_empty username = false ->
  is_empty first = false ->
  (1 <= question_num)%nat ->
  (forall c, find (sheet w) username = Some c ->
             is_empty (cell_at (sheet w) (cell_row c) (question_num + 1)) = true) ->
  raises (update_sheet_try username question_num first) w = false ->
  let w1 := fst (update_sheet username question_num first w) in
  raises (update_sheet_try username question_num second) w1 = false ->
  let w2 := fst (update_sheet username question_num second w1) in
  sheet w2 = sheet w1 /\
  exists row, pending (session w2) row (question_num + 1) second (Some first).
Proof.
  intros Hu Hfirst Hq Hempty Hok1. cbv zeta.
  destruct (update_sheet_completes _ _ _ _ Hok1) as [-> Hres1].
  destruct (update_sheet_try username question_num first w) as [w1 r1] eqn:Hrun1.
  cbn [fst snd] in *. subst r1.
  destruct (@direct_write_locates username question_num first w w1 Hu Hq Hempty Hrun1)
    as (c' & Hfind' & Hcell).
  intros Hok2.
  destruct (update_sheet_completes _ _ _ _ Hok2) as [-> Hres2].
  destruct (update_sheet_try username question_num second w1) as [w2 r2] eqn:Hrun2.
  cbn [fst snd] in *. subst r2.
  apply update_sheet_try_outcome in Hrun2 as (_ & _ & Hout).
  rewrite Hfind' in Hout. cbv zeta in Hout. rewrite Hcell, Hfirst in Hout.
  destruct Hout as (Hsheet & Hp). split; [exact Hsheet | eauto].
Qed.

(** X6. [add_question] returns normally whatever the service does and
    never touches the AnswerSheet or the session.  It ends either with the
    success message and the one new row, or with the error message and the
    sheet of questions as it was. *)
Theorem add_question_reports_failure (name question : string) (w : World) :
  let w' := fst (add_question name question w) in
  snd (add_question name question w) = Ok tt /\
  sheet w' = sheet w /\
  session w' = session w /\
  ((hd_error (log w') = Some SuccessQuestionSent /\
    question_sheet w' =
      question_sheet w ++ [[name; question; strftime_tokyo (clock w)]]) \/
   (exists e, hd_error (log w') = Some (ErrorQuestion e) /\
              question_sheet w' = question_sheet w)).
Proof.
  cbv zeta.
  destruct (add_question_outcome name question w)
    as (w1 & Hsh & Hss & [[Hrun Hq] | [e [Hrun Hq]]]);
    rewrite Hrun; cbn [fst snd emit log hd_error sheet session question_sheet].
  - repeat split; auto.
  - repeat split; auto. right. exists e. auto.
Qed.

(** X7. Pressing yes again after a failed overwrite works: when the first
    press ends with the error shown and a second press ends with the page
    rerun, the answer that was pending from the start is in its cell and
    the flag is cleared. *)
Theorem yes_again_after_failure (w w1 w2 : World) (row col : nat)
    (new_answer : string) (existing : option string) :
  pending (session w) row col new_answer existing ->
  confirm_panel true false w = (w1, Ok tt) ->
  confirm_panel true false w1 = (w2, Raise RerunException) ->
  sheet w2 = update_cell (sheet w) row col new_answer /\
  cell_at (sheet w2) row col = new_answer /\
  confirm_overwrite (session w2) = false.
Proof.
  intros Hp Hfail Hdone.
  eapply confirm_yes_outcome in Hfail; [| exact Hp].
  destruct Hfail as [(Hr & _) | (_ & Hsh1 & Hss1 & _)]; [discriminate |].
  assert (Hp1 : pending (session w1) row col new_answer existing)
    by (unfold pending in *; congruence).
  eapply confirm_yes_outcome in Hdone; [| exact Hp1].
  destruct Hdone as [(_ & Hsh2 & Hss2 & _) | (Hr & _)]; [| discriminate].
  rewrite Hsh1 in Hsh2. split; [exact Hsh2 |]. split.
  - rewrite Hsh2, cell_at_update_cell, !Nat.eqb_refl. reflexivity.
  - rewrite Hss2. reflexivity.
Qed.

End Flow.

(* ================================================================= *)
(** ** Further properties of the page script *)

Section Page.
Context {A : Arith}.

Lemma update_sheet_returns (username : string) (question_num : nat)
    (new_answer : string) (w : World) :
  snd (update_sheet username question_num new_answer w) = Ok tt.
Proof.
  rewrite update_sheet_unfold.
  destruct (update_sheet_try username question_num new_answer w) as [w1 r] eqn:Hrun.
  apply update_sheet_try_outcome in Hrun as (_ & _ & Hout).
  destruct r as [[] | e]; [reflexivity |].
  destruct Hout as (He & _). rewrite He. reflexivity.
Qed.

Lemma with_retry_overwrite_exception (w w' : World) (e : Exn) :
  with_retry_defaults _overwrite_cell w = (w', Raise e) -> is_Exception e = true.
Proof.
  intros Hrun.
  exact (@with_retry_rule A unit _overwrite_cell 3 2
           (fun _ => True) (fun _ _ => True) (fun _ e => is_Exception e = true)
           ltac:(lia)
           ltac:(intros w1 w2 r1 _ Hf; unfold _overwrite_cell in Hf;
                 destruct r1 as [v | e1]; [exact I |];
                 destruct (row_number (session w1)); [| inversion Hf; reflexivity];
                 destruct (col_number (session w1)); [| inversion Hf; reflexivity];
                 destruct (answer (session w1)); [| inversion Hf; reflexivity];
                 apply sheet_update_cell_spec in Hf; tauto)
           ltac:(intros; exact I)
           w w' (Raise e) I Hrun).
Qed.

(** The panel ends normally or by asking for a rerun, and asks for one
    only when a button was pressed on a pending overwrite. *)
Lemma confirm_panel_result (yes no : bool) (w w' : World) (r : Result unit) :
  confirm_panel yes no w = (w', r) ->
  r = Ok tt \/
  (r = Raise RerunException /\ (yes = true \/ no = true) /\
   confirm_overwrite (session w) = true).
Proof.
  intros Hrun. unfold confirm_panel in Hrun.
  destruct (confirm_overwrite (session w)) eqn:Hflag;
    [| inversion Hrun; auto].
  unfold bind, try_except, show, modify, time_sleep, st_rerun, raise, ret in Hrun.
  destruct yes.
  - match type of Hrun with
    | context [with_retry_defaults _overwrite_cell ?w0] =>
        destruct (with_retry_defaults _overwrite_cell w0) as [w1 r1] eqn:Hw
    end.
    destruct r1 as [v | e].
    + cbn in Hrun. inversion Hrun; subst. right. auto.
    + apply with_retry_overwrite_exception in Hw. rewrite Hw in Hrun.
      destruct no; inversion Hrun; subst; auto.
  - destruct no; inversion Hrun; subst; auto.
Qed.

(** X8. Once lines 46-52 have opened the workbook, the rest of a run of
    the page, lines 150-200, never ends with an uncaught error: whatever the
    visitor does and whatever the service answers to the requests of these
    lines, it ends normally or with the rerun signal, and with the signal
    only when yes or no was pressed. *)
Theorem forms_and_panel_never_crash (inp : Inputs) (w w' : World) (r : Result unit) :
  script inp w = (w', r) ->
  r = Ok tt \/
  (r = Raise RerunException /\ (yes_clicked inp = true \/ no_clicked inp = true)).
Proof.
  intros Hrun. unfold script, bind in Hrun.
  set (first :=
         if submitted inp
         then if is_empty (in_username inp) then show ErrorNoUsername
              else update_sheet (in_username inp) (in_question inp + 1) (in_answer inp)
         else ret tt) in *.
  assert (Hfirst : snd (first w) = Ok tt).
  { unfold first. destruct (submitted inp); [| reflexivity].
    destruct (is_empty (in_username inp)); [reflexivity |].
    apply update_sheet_returns. }
  destruct (first w) as [w1 r1]. cbn [snd] in Hfirst. subst r1.
  destruct (confirm_panel (yes_clicked inp) (no_clicked inp) w1) as [w2 r2] eqn:Hpanel.
  apply confirm_panel_result in Hpanel.
  destruct r2 as [[] | e2].
  - destruct (question_submitted inp); [| inversion Hrun; auto].
    destruct (is_empty (in_name inp) || is_empty (in_question_text inp));
      [inversion Hrun; auto |].
    destruct (add_question_outcome (in_name inp) (in_question_text inp) w2)
      as (w3 & _ & _ & [[Hq _] | [e [Hq _]]]);
      rewrite Hq in Hrun; inversion Hrun; auto.
  - inversion Hrun; subst.
    destruct Hpanel as [Hr | (Hr & Hbtn & _)]; [discriminate |]. auto.
Qed.

Lemma script_without_yes_keeps_cell (inp : Inputs) (w : World) (row col : nat) :
  yes_clicked inp = false ->
  is_empty (cell_at (sheet w) row col) = false ->
  cell_at (sheet (fst (script inp w))) row col = cell_at (sheet w) row col.
Proof.
  intros Hyes Hfull. unfold script, bind. rewrite Hyes.
  set (first :=
         if submitted inp
         then if is_empty (in_username inp) then show ErrorNoUsername
              else update_sheet (in_username inp) (in_question inp + 1) (in_answer inp)
         else ret tt).
  assert (Hfirst : cell_at (sheet (fst (first w))) row col = cell_at (sheet w) row col).
  { unfold first. destruct (submitted inp); [| reflexivity].
    destruct (is_empty (in_username inp)); [reflexivity |].
    apply update_sheet_keeps_nonempty, Hfull. }
  destruct (first w) as [w1 [[] | e1]]; cbn [fst] in Hfirst; [| exact Hfirst].
  destruct (confirm_panel false (no_clicked inp) w1) as [w2 r2] eqn:Hpanel.
  apply confirm_panel_without_yes in Hpanel.
  destruct r2 as [[] | e2]; cbn [fst]; [| rewrite Hpanel; exact Hfirst].
  rewrite <- Hfirst, <- Hpanel.
  destruct (question_submitted inp); [| reflexivity].
  destruct (is_empty (in_name inp) || is_empty (in_question_text inp));
    [reflexivity |].
  destruct (add_question_outcome (in_name inp) (in_question_text inp) w2)
    as (w3 & Hsh & _ & [[Hrun _] | [e [Hrun _]]]); rewrite Hrun; cbn; rewrite Hsh;
    reflexivity.
Qed.

(** X9. Over a whole session of page runs in none of which yes is pressed,
    a cell of the AnswerSheet that holds text keeps it: only a confirmed
    overwrite replaces an answer. *)
Theorem pages_without_yes_keep_answers (visits : list Inputs) :
  forall (w : World) (row col : nat),
    Forall (fun inp => yes_clicked inp = false) visits ->
    is_empty (cell_at (sheet w) row col) = false ->
    cell_at (sheet (run_pages visits w)) row col = cell_at (sheet w) row col.
Proof.
  induction visits as [| inp rest IH]; intros w row col Hall Hfull; [reflexivity |].
  inversion Hall as [| ? ? Hyes Hrest]; subst. cbn [run_pages].
  pose proof (script_without_yes_keeps_cell inp w row col Hyes Hfull) as Hstep.
  rewrite <- Hstep. apply IH; [exact Hrest |]. rewrite Hstep. exact Hfull.
Qed.

(** X10. The forms and the panel of lines 150-200 reach the service only
    for a submitted form that passes its check, or for yes on a pending
    overwrite: with an empty username, an empty name or question, nothing
    submitted, or no pressed, these lines issue no request and both sheets
    are as they were.  (The requests of lines 46-52, which open the
    workbook before these lines run, are not counted here.) *)
Theorem idle_or_invalid_forms_issue_no_request (inp : Inputs) (w : World) :
  submitted inp && negb (is_empty (in_username inp)) = false ->
  yes_clicked inp && confirm_overwrite (session w) = false ->
  question_submitted inp &&
    negb (is_empty (in_name inp) || is_empty (in_question_text inp)) = false ->
  let w' := fst (script inp w) in
  requests w' = requests w /\ sheet w' = sheet w /\
  question_sheet w' = question_sheet w.
Proof.
  intros Hform Hyes Hquestion. cbv zeta.
  unfold script, bind, confirm_panel, bind, show, modify, time_sleep, st_rerun,
    raise, ret, try_except.
  destruct (submitted inp); cbn [andb] in Hform.
  - apply negb_false_iff in Hform. rewrite Hform. cbn [emit session].
    destruct (confirm_overwrite (session w)) eqn:Hflag.
    + rewrite andb_true_r in Hyes. rewrite Hyes.
      destruct (no_clicked inp); cbn; [auto |].
      destruct (question_submitted inp); cbn [andb] in Hquestion; cbn; [| auto].
      apply negb_false_iff in Hquestion. rewrite Hquestion. cbn. auto.
    + destruct (question_submitted inp); cbn [andb] in Hquestion; cbn; [| auto].
      apply negb_false_iff in Hquestion. rewrite Hquestion. cbn. auto.
  - destruct (confirm_overwrite (session w)) eqn:Hflag.
    + rewrite andb_true_r in Hyes. rewrite Hyes.
      destruct (no_clicked inp); cbn; [auto |].
      destruct (question_submitted inp); cbn [andb] in Hquestion; cbn; [| auto].
      apply negb_false_iff in Hquestion. rewrite Hquestion. cbn. auto.
    + destruct (question_submitted inp); cbn [andb] in Hquestion; cbn; [| auto].
      apply negb_false_iff in Hquestion. rewrite Hquestion. cbn. auto.
Qed.

End Page.

(* ================================================================= *)
(** ** The labels and their columns *)

Lemma index_from_facts (label : string) :
  forall (l : list string) (pos n : nat),
    index_from label pos l = Some n ->
    (pos <= n < pos + List.length l)%nat /\ nth (n - pos) l EmptyString = label.
Proof.
  induction l as [| x rest IH]; intros pos n H; cbn in H; [discriminate |].
  destruct (String.eqb_spec x label) as [-> | Hne].
  - inversion H; subst. cbn. rewrite Nat.sub_diag. split; [lia | reflexivity].
  - apply IH in H as (Hrange & Hnth). cbn [List.length]. split; [lia |].
    replace (n - pos)%nat with (S (n - S pos)) by lia. exact Hnth.
Qed.

(** X11. The labels of the select box are pairwise distinct, so line 161
    maps the label at position [pos] (0-based) to the question number
    [pos + 1]; the numbers it produces are 1 to 18, one per label, and a
    text that is no label has none. *)
Theorem question_index_of_label :
  (forall pos, (pos < List.length options)%nat ->
     question_index (nth pos options EmptyString) = Some (pos + 1)%nat) /\
  (forall label n, question_index label = Some n ->
     (1 <= n <= 18)%nat /\ nth (n - 1) options EmptyString = label).
Proof.
  split.
  - intros pos Hpos. change (List.length options) with 18%nat in Hpos.
    do 18 (destruct pos as [| pos]; [vm_compute; reflexivity |]). lia.
  - intros label n H. unfold question_index, options_index in H.
    destruct (index_from label 0 options) as [pos |] eqn:Hidx; [| discriminate].
    inversion H; subst. apply index_from_facts in Hidx as (Hrange & Hnth).
    change (List.length options) with 18%nat in Hrange.
    rewrite Nat.sub_0_r in Hnth.
    split; [lia |]. replace (pos + 1 - 1)%nat with pos by lia. exact Hnth.
Qed.

Lemma question_index_of_label_witness :
  question_index (nth 3 options EmptyString) = Some 4%nat /\
  nth (4 - 1) options EmptyString = nth 3 options EmptyString.
Proof.
  split.
  - exact (proj1 question_index_of_label 3%nat ltac:(vm_compute; lia)).
  - exact (proj2 (proj2 question_index_of_label (nth 3 options EmptyString) 4%nat
                    eq_refl)).
Defined.

(* ================================================================= *)
(** ** Sample runs for the further properties *)

Lemma update_sheet_never_clears_pending_witness :
  let w := @world_of exact_arith sample_sheet sample_pending [] [] in
  confirm_overwrite (session (fst (update_sheet "alice" 2 "other" w))) = true.
Proof.
  intros w.
  exact (@update_sheet_never_clears_pending exact_arith "alice" 2 "other" w eq_refl).
Defined.

Lemma resubmission_asks_for_confirmation_witness :
  let w := @world_of exact_arith [sample_header] initial_session [] [] in
  let w1 := fst (update_sheet "alice" 1 "hello" w) in
  let w2 := fst (update_sheet "alice" 1 "world" w1) in
  sheet w2 = sheet w1 /\
  exists row, pending (session w2) row (1 + 1) "world" (Some "hello"%string).
Proof.
  intros w.
  exact (@resubmission_asks_for_confirmation exact_arith "alice" 1 "hello" "world" w
           eq_refl eq_refl (le_n 1)
           ltac:(intros c H; discriminate H) eq_refl eq_refl).
Defined.

Lemma yes_again_after_failure_witness :
  let w := @world_of exact_arith sample_sheet sample_pending
             [ApiFail; ApiFail; ApiFail] [] in
  let w1 := fst (confirm_panel true false w) in
  let w2 := fst (confirm_panel true false w1) in
  sheet w2 = update_cell (sheet w) 2 2 "world" /\
  cell_at (sheet w2) 2 2 = "world"%string /\
  confirm_overwrite (session w2) = false.
Proof.
  intros w w1 w2.
  assert (H1 : confirm_panel true false w = (w1, Ok tt))
    by (vm_compute; reflexivity).
  assert (H2 : confirm_panel true false w1 = (w2, Raise RerunException))
    by (vm_compute; reflexivity).
  exact (@yes_again_after_failure exact_arith w w1 w2 2 2 "world"
           (Some "hello"%string) eq_refl H1 H2).
Defined.

Lemma forms_and_panel_never_crash_witness :
  let w := @world_of exact_arith sample_sheet initial_session
             [OtherFail] [] in
  snd (script (alice_sends 0 "world") w) = Ok tt \/
  (snd (script (alice_sends 0 "world") w) = Raise RerunException /\
   (yes_clicked (alice_sends 0 "world") = true \/
    no_clicked (alice_sends 0 "world") = true)).
Proof.
  intros w.
  exact (@forms_and_panel_never_crash exact_arith (alice_sends 0 "world") w
           (fst (script (alice_sends 0 "world") w))
           (snd (script (alice_sends 0 "world") w)) eq_refl).
Defined.

Lemma pages_without_yes_keep_answers_witness :
  let w := @world_of exact_arith sample_sheet initial_session [] [] in
  cell_at (sheet (run_pages [alice_sends 0 "again"; idle_visit;
                             alice_sends 1 "more"] w)) 2 2 = "hello"%string.
Proof.
  intros w.
  exact (@pages_without_yes_keep_answers exact_arith
           [alice_sends 0 "again"; idle_visit; alice_sends 1 "more"] w 2 2
           ltac:(repeat constructor) eq_refl).
Defined.

Lemma idle_or_invalid_forms_issue_no_request_witness :
  let w := @world_of exact_arith sample_sheet sample_pending [ApiFail] [] in
  let nameless :=
    {| in_username := ""; in_question := 0; in_answer := "text";
       submitted := true; yes_clicked := false; no_clicked := true;
       in_name := "bob"; in_question_text := ""; question_submitted := true |} in
  let w' := fst (script nameless w) in
  requests w' = requests w /\ sheet w' = sheet w /\
  question_sheet w' = question_sheet w.
Proof.
  intros w nameless.
  exact (@idle_or_invalid_forms_issue_no_request exact_arith nameless w
           eq_refl eq_refl eq_refl).
Defined.

Lemma update_sheet_frame_witness :
  let w := @world_of exact_arith sample_sheet initial_session
             [Pass; ApiFail; Pass] [1 # 4] in
  cell_at (sheet (fst (update_sheet "alice" 2 "new" w))) 2 2 = "hello"%string.
Proof.
  intros w.
  exact (@update_sheet_frame exact_arith "alice" 2 "new" w 2 2
           ltac:(vm_compute; lia)
           ltac:(intros c H; inversion H; subst; right; cbn; lia)).
Defined.

Lemma fault_free_new_user_appends_one_row_witness :
  let w := @world_of exact_arith [sample_header] initial_session [] [] in
  sheet (fst (update_sheet "alice" 1 "hello" w)) =
  [sample_header; ["alice"; "hello"; ""; ""]]%string.
Proof.
  intros w.
  exact (@fault_free_new_user_appends_one_row exact_arith "alice" 1 "hello" w
           eq_refl eq_refl).
Defined.

(* ================================================================= *)
(** ** The calendar of the timestamp *)

Lemma check_range_sound (f : Z -> bool) :
  forall (fuel : nat) (lo len : Z),
    check_range fuel lo len f = true ->
    forall x, (lo <= x < lo + len)%Z -> f x = true.
Proof.
  induction fuel as [| fuel IH]; intros lo len H x Hx; cbn in H.
  - apply Z.leb_le in H. lia.
  - destruct (len <=? 0)%Z eqn:Hle; [apply Z.leb_le in Hle; lia |].
    apply Z.leb_gt in Hle.
    destruct (len =? 1)%Z eqn:Hone.
    + apply Z.eqb_eq in Hone. replace x with lo by lia. exact H.
    + apply Z.eqb_neq in Hone. apply andb_true_iff in H as [Hlow Hhigh].
      assert (0 <= len / 2 < len)%Z
        by (split; [apply Z.div_pos; lia | apply Z.div_lt; lia]).
      destruct (Z.lt_ge_cases x (lo + len / 2)).
      * apply (IH _ _ Hlow). lia.
      * apply (IH _ _ Hhigh). lia.
Qed.

Lemma doe_ok_cycle : check_range 20 0 146097 doe_ok = true.
Proof. vm_cast_no_check (@eq_refl bool true). Qed.

Lemma doe_ok_all (doe : Z) : (0 <= doe < 146097)%Z -> doe_ok doe = true.
Proof. intros H. apply (@check_range_sound doe_ok 20 0%Z 146097%Z doe_ok_cycle). lia. Qed.

Lemma civil_from_days_cycle (days : Z) :
  civil_from_days days =
  let z := (days + 719468)%Z in
  let '(y, m, d) := civil_of_doe (z mod 146097) in
  ((y + 400 * (z / 146097))%Z, m, d).
Proof.
  unfold civil_from_days, civil_of_doe. cbv zeta.
  replace (days + 719468 - (days + 719468) / 146097 * 146097)%Z
    with ((days + 719468) mod 146097)%Z by (rewrite Z.mod_eq; lia).
  f_equal. f_equal. lia.
Qed.

Lemma is_leap_cycle (y e : Z) : is_leap (y + 400 * e) = is_leap y.
Proof.
  unfold is_leap.
  replace ((y + 400 * e) mod 4)%Z with (y mod 4)%Z
    by (replace (y + 400 * e)%Z with (y + (100 * e) * 4)%Z by ring;
        now rewrite Z_mod_plus_full).
  replace ((y + 400 * e) mod 100)%Z with (y mod 100)%Z
    by (replace (y + 400 * e)%Z with (y + (4 * e) * 100)%Z by ring;
        now rewrite Z_mod_plus_full).
  replace ((y + 400 * e) mod 400)%Z with (y mod 400)%Z
    by (replace (y + 400 * e)%Z with (y + e * 400)%Z by ring;
        now rewrite Z_mod_plus_full).
  reflexivity.
Qed.

Lemma leap_years_through_cycle (y e : Z) :
  leap_years_through (y + 400 * e) = (leap_years_through y + 97 * e)%Z.
Proof.
  unfold leap_years_through.
  replace ((y + 400 * e) / 4)%Z with (y / 4 + 100 * e)%Z
    by (replace (y + 400 * e)%Z with (y + (100 * e) * 4)%Z by ring;
        now rewrite Z.div_add).
  replace ((y + 400 * e) / 100)%Z with (y / 100 + 4 * e)%Z
    by (replace (y + 400 * e)%Z with (y + (4 * e) * 100)%Z by ring;
        now rewrite Z.div_add).
  replace ((y + 400 * e) / 400)%Z with (y / 400 + e)%Z
    by (replace (y + 400 * e)%Z with (y + e * 400)%Z by ring;
        now rewrite Z.div_add).
  lia.
Qed.

Lemma days_of_civil_cycle (y m d e : Z) :
  days_of_civil (y + 400 * e) m d = (days_of_civil y m d + 146097 * e)%Z.
Proof.
  unfold days_of_civil, month_lengths. rewrite is_leap_cycle.
  replace (y + 400 * e - 1)%Z with (y - 1 + 400 * e)%Z by ring.
  rewrite leap_years_through_cycle. lia.
Qed.

Lemma days_in_month_cycle (y m e : Z) :
  days_in_month (y + 400 * e) m = days_in_month y m.
Proof. unfold days_in_month, month_lengths. rewrite is_leap_cycle. reflexivity. Qed.

(** [civil_from_days] is the Gregorian calendar: the date it gives for a
    day number exists, and is that many days from 1970-01-01. *)
Lemma civil_from_days_correct (days y m d : Z) :
  civil_from_days days = (y, m, d) ->
  (1 <= m <= 12 /\ 1 <= d <= days_in_month y m /\ days_of_civil y m d = days)%Z /\
  ((0 <= days < 2932897)%Z -> (0 <= y <= 9999)%Z).
Proof.
  intros Hciv. rewrite civil_from_days_cycle in Hciv. cbv zeta in Hciv.
  set (z := (days + 719468)%Z) in *.
  pose proof (Z.mod_pos_bound z 146097 ltac:(lia)) as Hdoe.
  pose proof (Z.div_mod z 146097 ltac:(lia)) as Hz.
  pose proof (doe_ok_all Hdoe) as Hok. unfold doe_ok in Hok.
  destruct (civil_of_doe (z mod 146097)) as [[y0 m0] d0].
  assert (Hy : y = (y0 + 400 * (z / 146097))%Z)
    by (exact (eq_sym (f_equal (fun p => fst (fst p)) Hciv))).
  assert (Hm : m = m0) by (exact (eq_sym (f_equal (fun p => snd (fst p)) Hciv))).
  assert (Hd : d = d0) by (exact (eq_sym (f_equal (fun p => snd p) Hciv))).
  clear Hciv. subst y m d.
  repeat (apply andb_true_iff in Hok as [Hok ?]).
  rewrite days_in_month_cycle, days_of_civil_cycle.
  repeat match goal with
         | H : (_ <=? _)%Z = true |- _ => apply Z.leb_le in H
         | H : (_ =? _)%Z = true |- _ => apply Z.eqb_eq in H
         end.
  split; [lia |]. intros Hrange.
  match goal with
  | H : (_ || _)%bool = true |- _ =>
      apply orb_true_iff in H as [H | H]; apply Z.leb_le in H
  end; unfold z in *; lia.
Qed.

Lemma digit_value_digit (n : Z) : digit_value (digit n) = (n mod 10)%Z.
Proof.
  unfold digit_value, digit.
  pose proof (Z.mod_pos_bound n 10 ltac:(lia)) as H.
  rewrite <- (Z2Nat.id (n mod 10)) at 2 by lia.
  assert (Hk : (Z.to_nat (n mod 10) < 10)%nat) by lia.
  revert Hk. generalize (Z.to_nat (n mod 10)). intros k Hk.
  do 10 (destruct k as [| k]; [reflexivity |]). lia.
Qed.

Lemma read2_two_digits (n : Z) :
  (0 <= n < 100)%Z ->
  read2 (digit (n / 10)) (digit n) = n.
Proof.
  intros H. unfold read2. rewrite !digit_value_digit.
  rewrite (Z.mod_small (n / 10) 10)
    by (split; [apply Z.div_pos; lia | apply Z.div_lt_upper_bound; lia]).
  pose proof (Z.div_mod n 10 ltac:(lia)). lia.
Qed.

Lemma read4_four_digits (n : Z) :
  (0 <= n < 10000)%Z ->
  read4 (digit (n / 1000)) (digit (n / 100)) (digit (n / 10)) (digit n) = n.
Proof.
  intros H. unfold read4, read2. rewrite !digit_value_digit.
  rewrite (Z.mod_small (n / 1000) 10)
    by (split; [apply Z.div_pos; lia | apply Z.div_lt_upper_bound; lia]).
  replace (n / 100)%Z with (n / 10 / 10)%Z by (rewrite Z.div_div by lia; reflexivity).
  replace (n / 1000)%Z with (n / 10 / 10 / 10)%Z by (rewrite !Z.div_div by lia; reflexivity).
  pose proof (Z.div_mod n 10 ltac:(lia)).
  pose proof (Z.div_mod (n / 10) 10 ltac:(lia)).
  pose proof (Z.div_mod (n / 10 / 10) 10 ltac:(lia)).
  lia.
Qed.

(** The text [strftime_tokyo] produces names a date and time that exist,
    and that are the given instant moved nine hours ahead. *)
Lemma strftime_tokyo_reads_back (epoch : Z) :
  (0 <= epoch < 253402268400)%Z ->
  exists t,
    read_timestamp (strftime_tokyo epoch) = Some t /\
    valid_civil t /\
    seconds_of_civil t = (epoch + 9 * 3600)%Z.
Proof.
  intros Hrange. unfold strftime_tokyo.
  change tokyo_offset with 32400%Z.
  set (local := (epoch + 32400)%Z).
  pose proof (Z.div_mod local 86400 ltac:(lia)) as Hlocal.
  pose proof (Z.mod_pos_bound local 86400 ltac:(lia)) as Hsecs.
  assert (Hdays : (0 <= local / 86400 < 2932897)%Z).
  { split; [apply Z.div_pos; lia | apply Z.div_lt_upper_bound; lia]. }
  destruct (civil_from_days (local / 86400)) as [[y m] d] eqn:Hciv.
  apply civil_from_days_correct in Hciv as ((Hm & Hd & Hcount) & Hy).
  specialize (Hy Hdays).
  set (secs := (local mod 86400)%Z) in *.
  assert (Hdim : (days_in_month y m <= 31)%Z).
  { unfold days_in_month, month_lengths.
    assert (Hmn : (Z.to_nat (m - 1) < 12)%nat) by lia.
    revert Hmn. generalize (Z.to_nat (m - 1)). intros k Hk.
    destruct (is_leap y);
      do 12 (destruct k as [| k]; [cbn; lia |]); lia. }
  assert (Hh : (0 <= secs / 3600 < 24)%Z)
    by (split; [apply Z.div_pos; lia | apply Z.div_lt_upper_bound; lia]).
  assert (Hmi : (0 <= secs / 60 mod 60 < 60)%Z) by (apply Z.mod_pos_bound; lia).
  assert (Hs : (0 <= secs mod 60 < 60)%Z) by (apply Z.mod_pos_bound; lia).
  eexists. split; [| split].
  - unfold read_timestamp, four_digits, two_digits. cbn -[digit Z.div Z.modulo].
    reflexivity.
  - unfold valid_civil. cbn [year month day hour minute second].
    rewrite read4_four_digits by lia. rewrite !read2_two_digits by lia. lia.
  - unfold seconds_of_civil. cbn [year month day hour minute second].
    rewrite read4_four_digits by lia. rewrite !read2_two_digits by lia.
    rewrite Hcount.
    pose proof (Z.div_mod secs 60 ltac:(lia)).
    pose proof (Z.div_mod (secs / 60) 60 ltac:(lia)).
    replace (secs / 3600)%Z with (secs / 60 / 60)%Z by (rewrite Z.div_div by lia; reflexivity).
    unfold local in *. lia.
Qed.

(* ================================================================= *)
(** ** The question log, in full *)

Section QuestionLog.
Context {A : Arith}.

Lemma one_request_each_question_append (values : Row) :
  one_request_each (question_sheet_append_row values).
Proof.
  intros w. unfold question_sheet_append_row, bind, modify, request.
  destruct (hd Pass (faults w)); reflexivity.
Qed.

(** Every request [add_question] issues is one attempt of the append. *)
Lemma add_question_accounting (name question : string) (w : World) :
  let w' := fst (add_question name question w) in
  exists (retries : nat) (shown : Event),
    (retries <= 2)%nat /\
    requests w' = (requests w + retries + 1)%nat /\
    log w' = shown :: rev (retry_trace 2 3 retries 0 (randoms w)) ++ log w.
Proof.
  cbv zeta. unfold add_question, datetime_now_tokyo, bind, try_except.
  destruct (with_retry_defaults _ w) as [w1 r] eqn:Hrun.
  pose proof Hrun as Hq. apply with_retry_question in Hq as (_ & _ & _ & Hres).
  unfold with_retry_defaults, with_retry in Hrun.
  destruct (@retry_loop_accounting A unit _ 3 2
              (one_request_each_question_append _)
              (proj1 (proj2 (proj2 (proj2 wrapped_operations_quiet))) _)
              3%nat 0%Z w w1 r eq_refl ltac:(lia) Hrun)
    as (retries & Hle & Hcount & Hlog & _).
  destruct r as [[[] |] | e]; [| contradiction |].
  - exists retries, SuccessQuestionSent. cbn. rewrite Hlog. repeat split; [lia | exact Hcount].
  - destruct Hres as [_ He]. rewrite He.
    exists retries, (ErrorQuestion e). cbn. rewrite Hlog. repeat split; [lia | exact Hcount].
Qed.

Lemma add_question_fault_free (name question : string) (w : World) :
  faults w = [] ->
  let w' := fst (add_question name question w) in
  hd_error (log w') = Some SuccessQuestionSent /\
  requests w' = S (requests w).
Proof.
  intros Hf. destruct w as [s qs ss lg n fs rs ck]. cbn [faults] in Hf. subst fs.
  cbv zeta. unfold add_question, datetime_now_tokyo, bind, try_except,
    with_retry_defaults, with_retry.
  change (Z.to_nat 3) with 3%nat. rewrite retry_loop_S.
  unfold question_sheet_append_row, bind, request, modify, show. cbn. auto.
Qed.

(** C9. [add_question] returns normally and touches neither the
    AnswerSheet nor the session.  Every request it issues is one attempt of
    the append: it issues one request more than it shows retry warnings, at
    most three, and only one when no request fails, in which case the
    success message is shown.  When the success message is shown, the sheet
    of questions is what it was followed by the one row of the name, the
    question and the timestamp; the rows it had are all kept.  The
    timestamp has the shape YYYY-MM-DD HH:MM:SS, and for a clock between
    1970 and the end of the year 9999 in Tokyo it names a date and time
    that exist and that are the instant of the call moved nine hours ahead
    of UTC. *)
Theorem submit_question_appends_one_row (name question : string) (w : World) :
  let w' := fst (add_question name question w) in
  let stamp := strftime_tokyo (clock w) in
  snd (add_question name question w) = Ok tt /\
  sheet w' = sheet w /\
  session w' = session w /\
  (exists (retries : nat) (shown : Event),
     (retries <= 2)%nat /\
     requests w' = (requests w + retries + 1)%nat /\
     log w' = shown :: rev (retry_trace 2 3 retries 0 (randoms w)) ++ log w) /\
  (faults w = [] ->
   hd_error (log w') = Some SuccessQuestionSent /\ requests w' = S (requests w)) /\
  (hd_error (log w') = Some SuccessQuestionSent ->
   question_sheet w' = question_sheet w ++ [[name; question; stamp]]) /\
  matches_pattern timestamp_pattern stamp = true /\
  ((0 <= clock w < 253402268400)%Z ->
   exists t, read_timestamp stamp = Some t /\ valid_civil t /\
             seconds_of_civil t = (clock w + 9 * 3600)%Z).
Proof.
  cbv zeta.
  split; [| split; [| split; [| split; [| split; [| split; [| split]]]]]].
  - destruct (add_question_outcome name question w)
      as (w1 & _ & _ & [[Hrun _] | [e [Hrun _]]]); rewrite Hrun; reflexivity.
  - destruct (add_question_outcome name question w)
      as (w1 & Hsh & _ & [[Hrun _] | [e [Hrun _]]]); rewrite Hrun; exact Hsh.
  - destruct (add_question_outcome name question w)
      as (w1 & _ & Hss & [[Hrun _] | [e [Hrun _]]]); rewrite Hrun; exact Hss.
  - apply add_question_accounting.
  - apply add_question_fault_free.
  - destruct (add_question_outcome name question w)
      as (w1 & _ & _ & [[Hrun Hq] | [e [Hrun Hq]]]); rewrite Hrun;
      cbn [fst emit log hd_error question_sheet]; [intros _; exact Hq | discriminate].
  - apply strftime_tokyo_shape.
  - apply strftime_tokyo_reads_back.
Qed.

End QuestionLog.

Lemma submit_question_appends_one_row_witness :
  let w := @world_of exact_arith [sample_header] initial_session [ApiFail] [1 # 4] in
  let v := @world_of exact_arith [sample_header] initial_session [] [] in
  question_sheet (fst (add_question "bob" "why?" w)) =
    [["bob"; "why?"; "2024-07-03 18:46:40"]]%string /\
  (hd_error (log (fst (add_question "bob" "why?" v))) = Some SuccessQuestionSent /\
   requests (fst (add_question "bob" "why?" v)) = 1%nat) /\
  exists t, read_timestamp (strftime_tokyo (clock w)) = Some t /\ valid_civil t /\
            seconds_of_civil t = (clock w + 9 * 3600)%Z.
Proof.
  intros w v.
  pose proof (@submit_question_appends_one_row exact_arith "bob" "why?" w)
    as (_ & _ & _ & _ & _ & Hrow & _ & Hstamp).
  pose proof (@submit_question_appends_one_row exact_arith "bob" "why?" v)
    as (_ & _ & _ & _ & Hfree & _).
  split; [exact (Hrow eq_refl) |]. split; [exact (Hfree eq_refl) |].
  apply Hstamp. change (0 <= 1720000000 < 253402268400)%Z. lia.
Defined.

(* ================================================================= *)
(** ** The user who is on the sheet *)

Section ExistingUser.
Context {A : Arith}.



End ExistingUser.


(* ================================================================= *)
(** ** The schedule of the retries *)


